(** * mcp-fetch: the HTTP transport's [fetch] tool and its bearer-token gate

    A shallow embedding of [src/mcp_server_fetch/http_server.py]:

    - Python [str] values are sequences of Unicode code points, [bytes]
      values sequences of bytes, Python [int]s unbounded integers;
    - the module globals ([USER_AGENT_AUTONOMOUS], [USER_AGENT_MANUAL],
      [PROXY_URL]) are an explicit state, calls that leave the module
      (to [fetch_url], to ASGI [send], to the wrapped application) are
      recorded in a trace, and a raised exception is an outcome of its own;
    - [fetch_url] lives in [server.py] and the wrapped ASGI application in the
      [mcp] package: both are parameters of the development. *)

From Stdlib Require Import String Ascii List ZArith NArith Lia Bool.
From Stdlib Require Import Strings.Byte DecimalString DecimalZ.
From Equations Require Import Equations.
Import ListNotations.

Local Open Scope Z_scope.

(** ** Python values *)

Module Py.

(** A [str] is a list of code points, a [bytes] a list of bytes. *)
Definition str := list N.
Definition bytes := list byte.

(** String and bytes literals of the source (all of them are ASCII). *)
Definition lit (s : string) : str := map N_of_ascii (list_ascii_of_string s).
Definition blit (s : string) : bytes := list_byte_of_string s.

(** The two characters a Rocq literal cannot hold conveniently. *)
Definition nl : str := [10%N].
Definition dquote : str := [34%N].
Definition bdquote : bytes := [x22].

(** A bytes literal between double quotes. *)
Definition bquoted (s : string) : bytes := bdquote ++ blit s ++ bdquote.

(** [len(s)] *)
Definition len {A : Type} (s : list A) : Z := Z.of_nat (length s).

(** Truth value of a sequence: [not s] holds exactly for the empty one. *)
Definition truthy {A : Type} (s : list A) : bool :=
  match s with [] => false | _ :: _ => true end.

(** [x or y] on an optional string: [None] and [""] are both falsy. *)
Definition or_else (x : option str) (y : str) : str :=
  match x with
  | Some s => if truthy s then s else y
  | None => y
  end.

(** [str(n)] for an [int]. *)
Definition str_of_int (n : Z) : str := lit (NilZero.string_of_int (Z.to_int n)).

(** How a slice bound is normalised against a sequence of length [n]:
    a negative bound counts from the end, and everything is clamped to
    [0 .. n]. *)
Definition clamp (n i : Z) : Z :=
  if i <? 0 then Z.max 0 (i + n) else Z.min i n.

(** [s[a:b]] *)
Definition slice {A : Type} (s : list A) (a b : Z) : list A :=
  let lo := clamp (len s) a in
  let hi := clamp (len s) b in
  firstn (Z.to_nat (hi - lo)) (skipn (Z.to_nat lo) s).

Definition str_eqb (a b : str) : bool :=
  if list_eq_dec N.eq_dec a b then true else false.

Definition bytes_eqb (a b : bytes) : bool :=
  if list_eq_dec Byte.byte_eq_dec a b then true else false.

End Py.
Import Py.

(** ** The pagination part of [fetch] (lines 100 to 116) *)

Definition NO_MORE_CONTENT : str := lit "<error>No more content available.</error>".

(** The text appended to a truncated slice. *)
Definition continuation_notice (next_start : Z) : str :=
  nl ++ nl
  ++ lit "<error>Content truncated. Call the fetch tool with a start_index of "
  ++ str_of_int next_start
  ++ lit " to get more content.</error>".

(** [f"{prefix}Contents of {url}:\n{truncated_content}"] *)
Definition envelope (prefix url body : str) : str :=
  prefix ++ lit "Contents of " ++ url ++ lit ":" ++ nl ++ body.

(** The local [truncated_content] before the notice is appended. *)
Definition truncated_content (content : str) (start_index max_length : Z) : str :=
  slice content start_index (start_index + max_length).

(** What [fetch] does once [fetch_url] has returned [(content, prefix)]. *)
Definition fetch_page (prefix url content : str) (start_index max_length : Z) : str :=
  let original_length := len content in
  if start_index >=? original_length then NO_MORE_CONTENT
  else
    let truncated := truncated_content content start_index max_length in
    if negb (truthy truncated) then NO_MORE_CONTENT
    else
      let actual_content_length := len truncated in
      let remaining_content := original_length - (start_index + actual_content_length) in
      let truncated :=
        if (actual_content_length =? max_length) && (remaining_content >? 0)
        then
          let next_start := start_index + actual_content_length in
          truncated ++ continuation_notice next_start
        else truncated in
      envelope prefix url truncated.

(** ** Effects: module state, calls that leave the module, exceptions *)

Module Eff.

(** A call either returns a value or raises. *)
Inductive outcome (X A : Type) : Type :=
| Returned (a : A)
| Raised (e : X).
Arguments Returned {X A} a.
Arguments Raised {X A} e.

(** A computation over a state [St] that logs events [E] and may raise [X]. *)
Definition M (St E X A : Type) : Type := St -> outcome X A * St * list E.

Section Ops.
Context {St E X : Type}.

Definition ret {A} (a : A) : M St E X A := fun s => (Returned a, s, []).

Definition bind {A B} (m : M St E X A) (k : A -> M St E X B) : M St E X B :=
  fun s =>
    match m s with
    | (Returned a, s1, t1) =>
        let '(r, s2, t2) := k a s1 in (r, s2, t1 ++ t2)
    | (Raised e, s1, t1) => (Raised e, s1, t1)
    end.

Definition raise {A} (e : X) : M St E X A := fun s => (Raised e, s, []).
Definition get : M St E X St := fun s => (Returned s, s, []).
Definition put (s : St) : M St E X unit := fun _ => (Returned tt, s, []).
Definition emit (e : E) : M St E X unit := fun s => (Returned tt, s, [e]).

(** [try: body  except <class>: ...] where [caught] says which raised
    objects the clause matches: the result tells the code after the
    [try] which way it went, an unmatched exception keeps propagating. *)
Definition try_except {A} (caught : X -> bool) (body : M St E X A)
  : M St E X (X + A) :=
  fun s =>
    match body s with
    | (Returned a, s1, t1) => (Returned (inr a), s1, t1)
    | (Raised e, s1, t1) =>
        if caught e then (Returned (inl e), s1, t1) else (Raised e, s1, t1)
    end.
End Ops.

Definition result {St E X A} (r : outcome X A * St * list E) : outcome X A := fst (fst r).
Definition final_state {St E X A} (r : outcome X A * St * list E) : St := snd (fst r).
Definition trace {St E X A} (r : outcome X A * St * list E) : list E := snd r.

End Eff.
Import Eff.

Notation "x <- m ;; k" := (bind m (fun x => k))
  (at level 61, m at next level, right associativity).
Notation "m ;;; k" := (bind m (fun _ => k))
  (at level 61, right associativity).

(** ** Global configuration and [configure_server] *)

Record globals : Type := mk_globals {
  USER_AGENT_AUTONOMOUS : option str;
  USER_AGENT_MANUAL : option str;
  PROXY_URL : option str
}.

(** The module's globals before [configure_server] runs. *)
Definition initial_globals : globals := mk_globals None None None.

Definition DEFAULT_USER_AGENT_AUTONOMOUS : str :=
  lit "ModelContextProtocol/1.0 (Autonomous; +https://github.com/modelcontextprotocol/servers)".
Definition DEFAULT_USER_AGENT_MANUAL : str :=
  lit "ModelContextProtocol/1.0 (User-Specified; +https://github.com/modelcontextprotocol/servers)".

(** What a handler can observe of a raised object: whether it is an instance
    of [Exception] (task cancellation and interpreter signals are not) and
    what [str(e)] gives. *)
Record exn : Type := mk_exn {
  exn_is_Exception : bool;
  exn_str : str
}.

(** Modelled from the spec: the robots policy gate ([checkAllowed(url,
    identity)]) is not part of [http_server.py], which imports [fetch_url]
    alone; [call_robots_check] stands for an evaluation of it. The other
    constructor is the call of [fetch_url] that the source makes. *)
Inductive call : Type :=
| call_fetch_url (url : str) (user_agent : option str) (force_raw : bool)
                 (proxy_url : option str)
| call_robots_check (url : str) (user_agent : option str).

Definition tool (A : Type) : Type := M globals call exn A.

Definition configure_server (custom_user_agent proxy_url : option str) : tool unit :=
  put (mk_globals
         (Some (or_else custom_user_agent DEFAULT_USER_AGENT_AUTONOMOUS))
         (Some (or_else custom_user_agent DEFAULT_USER_AGENT_MANUAL))
         proxy_url).

(** ** The [fetch] tool *)

Definition URL_REQUIRED : str := lit "<error>URL is required</error>".

(** [f"<error>Failed to fetch {url}: {str(e)}</error>"] *)
Definition failed_to_fetch (url : str) (e : exn) : str :=
  lit "<error>Failed to fetch " ++ url ++ lit ": " ++ exn_str e ++ lit "</error>".

Section Fetch.

(** The fetch step of [server.py]: for the arguments it is called with,
    either the pair [(content, prefix)] or the object it raises. *)
Variable fetch_url : str -> option str -> bool -> option str -> outcome exn (str * str).

(** [await fetch_url(url, user_agent, force_raw=..., proxy_url=...)] *)
Definition await_fetch_url (url : str) (user_agent : option str) (force_raw : bool)
           (proxy_url : option str) : tool (str * str) :=
  emit (call_fetch_url url user_agent force_raw proxy_url) ;;;
  match fetch_url url user_agent force_raw proxy_url with
  | Returned r => ret r
  | Raised e => raise e
  end.

Definition fetch (url : str) (max_length start_index : Z) (raw : bool) : tool str :=
  if negb (truthy url) then ret URL_REQUIRED
  else
    g <- get ;;
    r <- try_except exn_is_Exception
           (await_fetch_url url (USER_AGENT_AUTONOMOUS g) raw (PROXY_URL g)) ;;
    match r with
    | inl e => ret (failed_to_fetch url e)
    | inr (content, prefix) => ret (fetch_page prefix url content start_index max_length)
    end.

End Fetch.

(** ** [bytes.decode("utf-8")] *)

Module Utf8.
Local Open Scope N_scope.

Definition between (lo hi : N) (b : byte) : bool :=
  (lo <=? Byte.to_N b) && (Byte.to_N b <=? hi).

(** The six payload bits of a continuation byte. *)
Definition payload (b : byte) : N := Byte.to_N b - 128.

(** Strict decoding: the well-formed byte sequences of the Unicode
    standard (no overlong forms, no surrogates, nothing above U+10FFFF);
    [None] stands for the [UnicodeDecodeError] that [decode] raises on
    anything else. *)
Fixpoint decode (bs : bytes) : option str :=
  match bs with
  | [] => Some []
  | b0 :: rest =>
      let n0 := Byte.to_N b0 in
      if n0 <? 128 then option_map (cons n0) (decode rest)
      else if between 194 223 b0 then
        match rest with
        | b1 :: rest' =>
            if between 128 191 b1
            then option_map (cons ((n0 - 192) * 64 + payload b1)) (decode rest')
            else None
        | _ => None
        end
      else if between 224 239 b0 then
        match rest with
        | b1 :: b2 :: rest' =>
            if between (if n0 =? 224 then 160 else 128)
                       (if n0 =? 237 then 159 else 191) b1
               && between 128 191 b2
            then option_map
                   (cons ((n0 - 224) * 4096 + payload b1 * 64 + payload b2))
                   (decode rest')
            else None
        | _ => None
        end
      else if between 240 244 b0 then
        match rest with
        | b1 :: b2 :: b3 :: rest' =>
            if between (if n0 =? 240 then 144 else 128)
                       (if n0 =? 244 then 143 else 191) b1
               && between 128 191 b2 && between 128 191 b3
            then option_map
                   (cons ((n0 - 240) * 262144 + payload b1 * 4096
                          + payload b2 * 64 + payload b3))
                   (decode rest')
            else None
        | _ => None
        end
      else None
  end.

End Utf8.

(** ** The bearer-token middleware *)

(** A [dict] with [bytes] keys, in insertion order, one entry per key. *)
Module Dict.

Definition t : Type := list (bytes * bytes).

(** [d[k] = v] *)
Fixpoint set (k v : bytes) (d : t) : t :=
  match d with
  | [] => [(k, v)]
  | (k', v') :: d' =>
      if bytes_eqb k k' then (k', v) :: d' else (k', v') :: set k v d'
  end.

(** [dict(pairs)]: a later pair overwrites an earlier one with the same key. *)
Definition of_pairs (pairs : list (bytes * bytes)) : t :=
  fold_left (fun d kv => set (fst kv) (snd kv) d) pairs [].

(** [d.get(k, default)] *)
Definition get (d : t) (k default : bytes) : bytes :=
  match find (fun kv => bytes_eqb k (fst kv)) d with
  | Some kv => snd kv
  | None => default
  end.

End Dict.

(** The part of an ASGI connection scope the middleware reads:
    [scope["type"]] and [scope.get("headers", ...)]. *)
Record scope : Type := mk_scope {
  scope_type : str;
  scope_headers : option (list (bytes * bytes))
}.

(** The ASGI messages the middleware sends. *)
Inductive message : Type :=
| http_response_start (status : Z) (headers : list (bytes * bytes))
| http_response_body (body : bytes).

(** What the middleware does to the outside: a [send], or a call of the
    application it wraps. *)
Inductive asgi_event : Type :=
| sent (m : message)
| app_called (sc : scope).

Inductive asgi_exn : Type :=
| UnicodeDecodeError (object : bytes)
| app_error (e : exn).

Definition asgi (A : Type) : Type := M unit asgi_event asgi_exn A.
Definition asgi_app : Type := scope -> asgi unit.

(** [b.decode("utf-8")] *)
Definition bytes_decode (b : bytes) : asgi str :=
  match Utf8.decode b with
  | Some s => ret s
  | None => raise (UnicodeDecodeError b)
  end.

(** [await send(m)] and [await app(scope, receive, send)] *)
Definition await_send (m : message) : asgi unit := emit (sent m).
Definition await_app (app : asgi_app) (sc : scope) : asgi unit :=
  emit (app_called sc) ;;; app sc.

(** [b'{"error": "Unauthorized", "message": "Invalid or missing Bearer token"}'] *)
Definition UNAUTHORIZED_BODY : bytes :=
  blit "{" ++ bquoted "error" ++ blit ": " ++ bquoted "Unauthorized" ++ blit ", "
  ++ bquoted "message" ++ blit ": " ++ bquoted "Invalid or missing Bearer token"
  ++ blit "}".

Definition UNAUTHORIZED_START : message :=
  http_response_start 401
    [ (blit "content-type", blit "application/json");
      (blit "www-authenticate", blit "Bearer") ].

Definition auth_middleware (app : asgi_app) (token : str) (sc : scope) : asgi unit :=
  if str_eqb (scope_type sc) (lit "http") then
    let headers :=
      Dict.of_pairs (match scope_headers sc with Some h => h | None => [] end) in
    auth_header <- bytes_decode (Dict.get headers (blit "authorization") (blit "")) ;;
    let expected_auth := lit "Bearer " ++ token in
    if negb (str_eqb auth_header expected_auth) then
      await_send UNAUTHORIZED_START ;;;
      await_send (http_response_body UNAUTHORIZED_BODY) ;;;
      ret tt
    else await_app app sc
  else await_app app sc.

Definition create_auth_middleware (app : asgi_app) (token : str) : asgi_app :=
  auth_middleware app token.

Section GetApp.

(** [mcp.streamable_http_app], the application of the [mcp] package. *)
Variable streamable_http_app : asgi_app.

Definition get_app (auth_token : option str) : asgi_app :=
  let app := streamable_http_app in
  match auth_token with
  | Some token => if truthy token then create_auth_middleware app token else app
  | None => app
  end.

End GetApp.

(** ** Notions used in the statements *)

(** The constraints the [FetchArgs] class declares on the two integers. *)
Definition FetchArgs_ok (max_length start_index : Z) : Prop :=
  0 < max_length < 1000000 /\ 0 <= start_index.

(** The index [fetch_page] names in the notice, when it appends one: the
    tests of lines 101, 105 and 112 and the [next_start] of line 113. *)
Definition continuation (content : str) (start_index max_length : Z) : option Z :=
  if start_index >=? len content then None
  else
    let truncated := truncated_content content start_index max_length in
    if negb (truthy truncated) then None
    else if (len truncated =? max_length)
            && (len content - (start_index + len truncated) >? 0)
         then Some (start_index + len truncated)
         else None.

Definition inspect {A : Type} (a : A) : {b : A | a = b} := exist _ a eq_refl.

(** The start indices of the successive calls of a caller that starts at
    [start_index] and calls again with the named index for as long as the
    output carries a notice. *)
Equations? follow (content : str) (max_length start_index : Z) : list Z
  by wf (Z.to_nat (len content - start_index)) lt :=
  follow content max_length start_index
    with inspect (continuation content start_index max_length) => {
    | exist _ (Some next_start) _ => start_index :: follow content max_length next_start;
    | exist _ None _ => [start_index] }.
Proof.
  unfold continuation in e.
  destruct (start_index >=? len content); [discriminate|].
  destruct (truncated_content content start_index max_length) as [|c t] eqn:Ht;
    [discriminate|].
  cbn [truthy negb] in e.
  destruct (len (c :: t) =? max_length); [|discriminate].
  destruct (Z.gtb_spec (len content - (start_index + len (c :: t))) 0); [|discriminate].
  cbn [andb] in e. injection e as <-.
  unfold len in *. cbn [length] in *. lia.
Qed.

(** A trace is gated for a user agent when every retrieval made under that
    user agent comes after a robots evaluation of the same URL. *)
Definition robots_gated (user_agent : option str) (t : list call) : Prop :=
  forall pre post url raw proxy,
    t = pre ++ call_fetch_url url user_agent raw proxy :: post ->
    exists ua, In (call_robots_check url ua) pre.

(** ** A small world to evaluate the definitions in *)

Definition example_url : str := lit "http://example.com/".
Definition bad_url : str := lit "http://bad.example".
Definition connection_refused : exn := mk_exn true (lit "connection refused").
Definition cancelled : exn := mk_exn false (lit "").

(** A fetch step that serves twelve characters, except at [bad_url]. *)
Definition example_fetch_url (url : str) (user_agent : option str) (force_raw : bool)
           (proxy_url : option str) : outcome exn (str * str) :=
  if str_eqb url bad_url then Raised connection_refused
  else Returned (lit "abcdefghijkl", lit "").

(** The same with an empty page. *)
Definition empty_fetch_url (url : str) (user_agent : option str) (force_raw : bool)
           (proxy_url : option str) : outcome exn (str * str) :=
  Returned (lit "", lit "").

(** Twelve thousand characters behind every URL. *)
Definition long_page : str := repeat 97%N (Z.to_nat 12000).
Definition long_fetch_url (url : str) (user_agent : option str) (force_raw : bool)
           (proxy_url : option str) : outcome exn (str * str) :=
  Returned (long_page, lit "").

(** The globals after [configure_server()] with its defaults. *)
Definition configured : globals :=
  final_state (configure_server None None initial_globals).

(** An application that answers nothing. *)
Definition silent_app : asgi_app := fun _ => ret tt.

Definition http_scope (headers : list (bytes * bytes)) : scope :=
  mk_scope (lit "http") (Some headers).

(** The [Authorization] value [auth_middleware] looks at:
    [dict(scope.get("headers", [])).get(b"authorization", b"")]. *)
Definition authorization_header (sc : scope) : bytes :=
  Dict.get (Dict.of_pairs (match scope_headers sc with Some h => h | None => [] end))
           (blit "authorization") (blit "").

(** The two messages of the 401 response. *)
Definition UNAUTHORIZED : list asgi_event :=
  [sent UNAUTHORIZED_START; sent (http_response_body UNAUTHORIZED_BODY)].

(** ** [serve_http] and [main] *)

(** Relabelling the events of a computation that runs inside another one. *)
Definition map_events {St E E' X A : Type} (f : E -> E') (m : M St E X A)
  : M St E' X A :=
  fun s => let '(r, s', t) := m s in (r, s', map f t).

(** What [serve_http] does to the outside: the lines it prints and the call
    [uvicorn.run(app, host=..., port=..., log_level=...)]; [during_configure]
    relabels the calls of [configure_server] (it makes none). *)
Inductive serve_event : Type :=
| during_configure (c : call)
| printed (line : str)
| uvicorn_run (app : asgi_app) (host : str) (port : Z) (log_level : str).

(** [print(line)] *)
Definition print (line : str) : M globals serve_event exn unit := emit (printed line).

(** The truth value of [auth_token: str | None]. *)
Definition token_given (auth_token : option str) : bool :=
  match auth_token with Some token => truthy token | None => false end.

(** The namespace [parser.parse_args()] returns. *)
Record args : Type := mk_args {
  args_transport : str;
  args_host : str;
  args_port : Z;
  args_auth_token : option str;
  args_user_agent : option str;
  args_proxy_url : option str
}.

(** What [main] does to the outside: [load_dotenv(env_path)], what
    [serve_http] does, and [asyncio.run(serve(user_agent, proxy_url))] for
    the stdio transport of [server.py]. *)
Inductive main_event (path : Type) : Type :=
| load_dotenv (env_path : path)
| in_serve_http (e : serve_event)
| asyncio_run_serve (custom_user_agent proxy_url : option str).
Arguments load_dotenv {path} env_path.
Arguments in_serve_http {path} e.
Arguments asyncio_run_serve {path} custom_user_agent proxy_url.

Section Serve.

Variable streamable_http_app : asgi_app.

Definition serve_http (host : str) (port : Z) (auth_token custom_user_agent proxy_url : option str)
  : M globals serve_event exn unit :=
  map_events during_configure (configure_server custom_user_agent proxy_url) ;;;
  let app := get_app streamable_http_app auth_token in
  print (lit "Starting MCP fetch server on " ++ host ++ lit ":" ++ str_of_int port) ;;;
  (if token_given auth_token
   then print (lit "Authentication: Bearer token required")
   else print (lit "Authentication: None (public access)")) ;;;
  emit (uvicorn_run app host port (lit "info")).

(** File system paths are left abstract; [path_exists] is [Path.exists]. *)
Variable path : Type.
Variable path_exists : path -> bool.

(** [for env_path in env_paths: if env_path.exists(): load_dotenv(env_path); break];
    the result is the file that was loaded. *)
Fixpoint load_env_files (env_paths : list path)
  : M globals (main_event path) exn (option path) :=
  match env_paths with
  | [] => ret None
  | env_path :: rest =>
      if path_exists env_path
      then emit (load_dotenv env_path) ;;; ret (Some env_path)
      else load_env_files rest
  end.

(** [argparse] and [os.getenv] are outside the repository: what building
    the parser and [parser.parse_args()] give (a namespace, or the exit or
    error they end in) is a function of the environment file that was loaded. [dotenv]
    says whether [from dotenv import load_dotenv] succeeds; the three paths
    are [Path.cwd() / ".env"], [Path("/etc/default/mcp-fetch")] and
    [Path(__file__).parent.parent / ".env"]. *)
Variable parse_args : option path -> outcome exn args.
Variable dotenv : bool.
Variables (cwd_env etc_default package_env : path).

Definition main : M globals (main_event path) exn unit :=
  loaded <- (if dotenv
             then load_env_files [cwd_env; etc_default; package_env]
             else ret None) ;;
  a <- (match parse_args loaded with
        | Returned a => ret a
        | Raised e => raise e
        end) ;;
  if str_eqb (args_transport a) (lit "http")
  then
    map_events in_serve_http
      (serve_http (args_host a) (args_port a) (args_auth_token a)
         (args_user_agent a) (args_proxy_url a))
  else
    emit (asyncio_run_serve (args_user_agent a) (args_proxy_url a)).

(** The events of [main] before the arguments are parsed, and the file it
    has loaded by then. *)
Definition env_events : list (main_event path) :=
  trace ((if dotenv
          then load_env_files [cwd_env; etc_default; package_env]
          else ret None) initial_globals).

Definition env_loaded : option path :=
  match result ((if dotenv
                 then load_env_files [cwd_env; etc_default; package_env]
                 else ret None) initial_globals) with
  | Returned loaded => loaded
  | Raised _ => None
  end.

End Serve.

Arguments load_env_files {path} path_exists env_paths.
Arguments main streamable_http_app {path} path_exists parse_args dotenv
  cwd_env etc_default package_env.
Arguments env_events {path} path_exists dotenv cwd_env etc_default package_env.
Arguments env_loaded {path} path_exists dotenv cwd_env etc_default package_env.

(** Three places for an environment file, of which only the second exists,
    and a parser that asks for the HTTP transport when that file was loaded
    and for the stdio transport otherwise. *)
Definition example_exists (p : nat) : bool := Nat.eqb p 1.
Definition http_args : args :=
  mk_args (lit "http") (lit "localhost") 8000 (Some (lit "secret")) None None.
Definition stdio_args : args :=
  mk_args (lit "stdio") (lit "localhost") 8000 (Some (lit "secret"))
          (Some (lit "agent/1")) None.
Definition example_parse_args (loaded : option nat) : outcome exn args :=
  match loaded with
  | Some 1%nat => Returned http_args
  | Some _ => Raised (mk_exn false (lit "2"))
  | None => Returned stdio_args
  end.

(** * Sanity checks *)

Example follow_example : follow (lit "abcdefghijkl") 5 0 = [0; 5; 10].
Proof. reflexivity. Qed.

Example configured_user_agent :
  USER_AGENT_AUTONOMOUS configured = Some DEFAULT_USER_AGENT_AUTONOMOUS
  /\ USER_AGENT_MANUAL configured = Some DEFAULT_USER_AGENT_MANUAL
  /\ PROXY_URL configured = None.
Proof. repeat split. Qed.

Example scenario_a_small :
  fetch_page [] (lit "u") (lit "abcdefghijkl") 0 5
  = lit "Contents of u:" ++ nl ++ lit "abcde" ++ continuation_notice 5.
Proof. reflexivity. Qed.

Example scenario_b_small :
  fetch_page [] (lit "u") (lit "abcdefghijkl") 10 5
  = lit "Contents of u:" ++ nl ++ lit "kl".
Proof. reflexivity. Qed.

Example str_of_int_examples :
  str_of_int 0 = lit "0" /\ str_of_int 5000 = lit "5000" /\ str_of_int (-12) = lit "-12".
Proof. repeat split. Qed.

Example decode_ascii : Utf8.decode (blit "Bearer secret") = Some (lit "Bearer secret").
Proof. reflexivity. Qed.

Example decode_two_bytes : Utf8.decode [xc3; xa9] = Some [233%N].
Proof. reflexivity. Qed.

Example decode_euro : Utf8.decode [xe2; x82; xac] = Some [8364%N].
Proof. reflexivity. Qed.

Example decode_ill_formed :
  Utf8.decode [xff] = None /\ Utf8.decode [xc0; x80] = None
  /\ Utf8.decode [xed; xa0; x80] = None /\ Utf8.decode [xe2; x82] = None.
Proof. repeat split. Qed.

Example unauthorized_body_text :
  UNAUTHORIZED_BODY
  = [x7b; x22] ++ blit "error" ++ [x22; x3a; x20; x22] ++ blit "Unauthorized"
    ++ [x22; x2c; x20; x22] ++ blit "message" ++ [x22; x3a; x20; x22]
    ++ blit "Invalid or missing Bearer token" ++ [x22; x7d].
Proof. reflexivity. Qed.

(** * Facts about slices *)

Section SliceFacts.
Context {A : Type}.
Implicit Types (s : list A) (a b m : Z).

Lemma len_nonneg s : 0 <= len s.
Proof. unfold len. lia. Qed.

Lemma len_app s1 s2 : len (s1 ++ s2) = len s1 + len s2.
Proof. unfold len. rewrite length_app. lia. Qed.

Lemma truthy_len s : truthy s = true <-> 0 < len s.
Proof. destruct s; unfold len; simpl; split; intros; try lia; congruence. Qed.

Lemma truthy_false s : truthy s = false <-> s = [].
Proof. destruct s; simpl; split; congruence. Qed.

Lemma clamp_range n i : 0 <= n -> 0 <= clamp n i <= n.
Proof. unfold clamp. destruct (Z.ltb_spec i 0); lia. Qed.

(** The length of any slice. *)
Lemma len_slice s a b :
  len (slice s a b) = Z.max 0 (clamp (len s) b - clamp (len s) a).
Proof.
  unfold slice.
  pose proof (clamp_range (len s) a (len_nonneg s)) as Ha.
  pose proof (clamp_range (len s) b (len_nonneg s)) as Hb.
  unfold len in *. rewrite length_firstn, length_skipn. lia.
Qed.

(** A window that starts inside the sequence. *)
Lemma slice_window s a m :
  0 <= a -> 0 <= m ->
  slice s a (a + m) = firstn (Z.to_nat m) (skipn (Z.to_nat a) s).
Proof.
  intros Ha Hm. unfold slice, clamp.
  pose proof (len_nonneg s) as Hn. unfold len in *.
  destruct (Z.ltb_spec a 0); [lia|].
  destruct (Z.ltb_spec (a + m) 0); [lia|].
  destruct (Z.le_gt_cases a (Z.of_nat (length s))) as [Hin|Hout].
  - destruct (Z.le_gt_cases (a + m) (Z.of_nat (length s))).
    + rewrite !Z.min_l by lia. f_equal. lia.
    + rewrite Z.min_r, Z.min_l by lia.
      rewrite !firstn_all2; trivial; rewrite length_skipn; lia.
  - rewrite !skipn_all2 by lia. now rewrite !firstn_nil.
Qed.

Lemma len_slice_window s a m :
  0 <= a < len s -> 0 < m ->
  len (slice s a (a + m)) = Z.min m (len s - a).
Proof.
  intros Ha Hm. rewrite slice_window by lia.
  unfold len in *. rewrite length_firstn, length_skipn. lia.
Qed.



End SliceFacts.

(** * Facts about the texts [fetch] produces *)

Section Texts.





Lemma continuation_notice_long (n : Z) : 99 <= len (continuation_notice n).
Proof.
  unfold continuation_notice. rewrite !len_app.
  pose proof (len_nonneg (str_of_int n)).
  change (len nl) with 1.
  change (len (lit _)) with 68 at 1.
  change (len (lit " to get more content.</error>")) with 29.
  lia.
Qed.

Lemma continuation_notice_nonempty (n : Z) : continuation_notice n <> [].
Proof.
  intros H. pose proof (continuation_notice_long n) as L.
  rewrite H in L. cbn in L. lia.
Qed.

Lemma envelope_inj (prefix url b b' : str) :
  envelope prefix url b = envelope prefix url b' -> b = b'.
Proof. unfold envelope. intros H. now do 5 apply app_inv_head in H. Qed.


Lemma envelope_no_notice (prefix url b : str) (n : Z) :
  envelope prefix url b <> envelope prefix url (b ++ continuation_notice n).
Proof.
  intros H. apply envelope_inj in H.
  rewrite <- (app_nil_r b) in H at 1. apply app_inv_head in H.
  now apply (continuation_notice_nonempty n).
Qed.

(** The capital C of "Contents of" occurs in every envelope and nowhere
    in the two error texts. *)
Lemma envelope_has_C (prefix url b : str) : In 67%N (envelope prefix url b).
Proof. unfold envelope. apply in_or_app. right. now left. Qed.

Lemma NO_MORE_CONTENT_not_envelope (prefix url b : str) :
  NO_MORE_CONTENT <> envelope prefix url b.
Proof.
  intros H. pose proof (envelope_has_C prefix url b) as HC. rewrite <- H in HC.
  cbv in HC. repeat (destruct HC as [HC|HC]; [discriminate HC|]). exact HC.
Qed.

End Texts.

(** * The pagination part, case by case *)

Section Pagination.
Variables (prefix url content : str) (start_index max_length : Z).

Let returned := truncated_content content start_index max_length.

(** The three ways out of [fetch_page]. *)
Lemma fetch_page_cases :
  (fetch_page prefix url content start_index max_length = NO_MORE_CONTENT
   /\ (len content <= start_index \/ returned = []))
  \/ (fetch_page prefix url content start_index max_length
      = envelope prefix url (returned ++ continuation_notice (start_index + len returned))
      /\ start_index < len content /\ returned <> []
      /\ len returned = max_length /\ start_index + len returned < len content)
  \/ (fetch_page prefix url content start_index max_length = envelope prefix url returned
      /\ start_index < len content /\ returned <> []
      /\ ~ (len returned = max_length /\ start_index + len returned < len content)).
Proof.
  unfold fetch_page. fold returned.
  destruct (Z.geb_spec start_index (len content)) as [Hge|Hlt].
  { left. split; [reflexivity | left; lia]. }
  destruct (truthy returned) eqn:Ht; simpl.
  2:{ left. split; [reflexivity | right; now apply truthy_false]. }
  assert (returned <> []) as Hne by (intros E; rewrite E in Ht; discriminate).
  destruct (Z.eqb_spec (len returned) max_length) as [He|He]; simpl.
  - destruct (Z.gtb_spec (len content - (start_index + len returned)) 0) as [Hr|Hr].
    + right. left. repeat split; trivial; lia.
    + right. right. repeat split; trivial; lia.
  - right. right. repeat split; trivial. tauto.
Qed.

(** For arguments within the declared constraints the slice is the window
    of at most [max_length] characters at [start_index]. *)
Lemma len_returned :
  FetchArgs_ok max_length start_index -> start_index < len content ->
  len returned = Z.min max_length (len content - start_index).
Proof.
  intros [Hm Hs] Hlt. unfold returned, truncated_content.
  apply len_slice_window; lia.
Qed.

Lemma returned_nonempty :
  FetchArgs_ok max_length start_index -> start_index < len content ->
  returned <> [].
Proof.
  intros Hok Hlt E. pose proof (len_returned Hok Hlt) as L.
  rewrite E in L. cbn in L. destruct Hok. lia.
Qed.

End Pagination.

(** * Running [fetch] *)

Section Runs.
Variable fetch_url : str -> option str -> bool -> option str -> outcome exn (str * str).
Variables (g : globals) (url : str) (max_length start_index : Z) (raw : bool).

Lemma fetch_empty_url :
  url = [] -> fetch fetch_url url max_length start_index raw g = (Returned URL_REQUIRED, g, []).
Proof. intros ->. reflexivity. Qed.

Lemma fetch_returned (content prefix : str) :
  truthy url = true ->
  fetch_url url (USER_AGENT_AUTONOMOUS g) raw (PROXY_URL g) = Returned (content, prefix) ->
  fetch fetch_url url max_length start_index raw g
  = (Returned (fetch_page prefix url content start_index max_length), g,
     [call_fetch_url url (USER_AGENT_AUTONOMOUS g) raw (PROXY_URL g)]).
Proof.
  intros Hu Hf. unfold fetch. rewrite Hu. simpl.
  unfold bind, get, try_except, await_fetch_url, bind, emit. simpl.
  rewrite Hf. reflexivity.
Qed.

Lemma fetch_raised (e : exn) :
  truthy url = true ->
  fetch_url url (USER_AGENT_AUTONOMOUS g) raw (PROXY_URL g) = Raised e ->
  fetch fetch_url url max_length start_index raw g
  = (if exn_is_Exception e then Returned (failed_to_fetch url e) else Raised e, g,
     [call_fetch_url url (USER_AGENT_AUTONOMOUS g) raw (PROXY_URL g)]).
Proof.
  intros Hu Hf. unfold fetch. rewrite Hu. simpl.
  unfold bind, get, try_except, await_fetch_url, bind, emit. simpl.
  rewrite Hf. simpl. destruct (exn_is_Exception e); reflexivity.
Qed.

End Runs.

(** * Pagination *)

Section PaginationProperties.
Variable fetch_url : str -> option str -> bool -> option str -> outcome exn (str * str).
Variables (g : globals) (url : str) (raw : bool) (content prefix : str).

Hypothesis url_given : truthy url = true.
Hypothesis fetched :
  fetch_url url (USER_AGENT_AUTONOMOUS g) raw (PROXY_URL g) = Returned (content, prefix).




(** C3. For every [start_index >= len(content)], and so for non-empty
    content as well, [fetch] returns the end-of-content error: it returns,
    it raises nothing, and it leaves the configuration alone. *)
Theorem fetch_past_the_end (max_length start_index : Z) :
  len content <= start_index ->
  fetch fetch_url url max_length start_index raw g
  = (Returned (lit "<error>No more content available.</error>"), g,
     [call_fetch_url url (USER_AGENT_AUTONOMOUS g) raw (PROXY_URL g)]).
Proof.
  intros Hge.
  rewrite (fetch_returned fetch_url g url max_length start_index raw
             content prefix url_given fetched).
  unfold fetch_page. destruct (Z.geb_spec start_index (len content)); [reflexivity|lia].
Qed.

(** C10. For empty content [fetch] returns the end-of-content error at
    every [start_index] (so at every [start_index >= 0], and at 0) and
    every [max_length]; its output is never an envelope. *)
Theorem fetch_empty_content (max_length start_index : Z) :
  content = [] ->
  result (fetch fetch_url url max_length start_index raw g)
  = Returned (lit "<error>No more content available.</error>")
  /\ forall prefix' url' body,
      result (fetch fetch_url url max_length start_index raw g)
      <> Returned (envelope prefix' url' body).
Proof.
  intros Hc.
  rewrite (fetch_returned fetch_url g url max_length start_index raw
             content prefix url_given fetched).
  assert (fetch_page prefix url content start_index max_length = NO_MORE_CONTENT) as E.
  { subst content. unfold fetch_page.
    destruct (start_index >=? len (@nil N)); [reflexivity|].
    unfold truncated_content, slice. cbn [len length Z.of_nat].
    now rewrite skipn_nil, firstn_nil. }
  unfold result. cbn [fst]. rewrite E. split; [reflexivity|].
  intros p u b [= H]. now apply NO_MORE_CONTENT_not_envelope in H.
Qed.

End PaginationProperties.




Lemma fetch_past_the_end_witness :
  truthy example_url = true
  /\ example_fetch_url example_url (USER_AGENT_AUTONOMOUS configured) false
       (PROXY_URL configured) = Returned (lit "abcdefghijkl", lit "")
  /\ len (lit "abcdefghijkl") <= 12
  /\ fetch example_fetch_url example_url 5000 12 false configured
     = (Returned (lit "<error>No more content available.</error>"), configured,
        [call_fetch_url example_url (USER_AGENT_AUTONOMOUS configured) false
           (PROXY_URL configured)]).
Proof.
  assert (truthy example_url = true) as Hu by reflexivity.
  assert (example_fetch_url example_url (USER_AGENT_AUTONOMOUS configured) false
            (PROXY_URL configured) = Returned (lit "abcdefghijkl", lit "")) as Hf
      by reflexivity.
  assert (len (lit "abcdefghijkl") <= 12) as Hs by (vm_compute; congruence).
  split; [exact Hu|split; [exact Hf|split; [exact Hs|]]].
  apply (fetch_past_the_end example_fetch_url configured example_url false
           (lit "abcdefghijkl") (lit "") Hu Hf 5000 12 Hs).
Defined.

Lemma fetch_empty_content_witness :
  truthy example_url = true
  /\ empty_fetch_url example_url (USER_AGENT_AUTONOMOUS configured) false
       (PROXY_URL configured) = Returned (lit "", lit "")
  /\ result (fetch empty_fetch_url example_url 5000 0 false configured)
     = Returned (lit "<error>No more content available.</error>").
Proof.
  assert (truthy example_url = true) as Hu by reflexivity.
  assert (empty_fetch_url example_url (USER_AGENT_AUTONOMOUS configured) false
            (PROXY_URL configured) = Returned (lit "", lit "")) as Hf by reflexivity.
  split; [exact Hu|split; [exact Hf|]].
  apply (fetch_empty_content empty_fetch_url configured example_url false
           (lit "") (lit "") Hu Hf 5000 0 eq_refl).
Defined.

(** * The entry point *)

Section EntryPoint.
Variable fetch_url : str -> option str -> bool -> option str -> outcome exn (str * str).
Variables (g : globals) (max_length start_index : Z) (raw : bool).

(** C7. With an empty [url], [fetch] returns the text
    "<error>URL is required</error>" at once: [fetch_url] is not called,
    whatever it would do. *)
Theorem fetch_url_required :
  fetch fetch_url (lit "") max_length start_index raw g
  = (Returned (lit "<error>URL is required</error>"), g, []).
Proof. reflexivity. Qed.

(** The calls [fetch] makes: none for an empty [url], otherwise the one
    call of [fetch_url] under the autonomous user agent. *)
Lemma fetch_trace (url : str) :
  trace (fetch fetch_url url max_length start_index raw g)
  = if truthy url
    then [call_fetch_url url (USER_AGENT_AUTONOMOUS g) raw (PROXY_URL g)]
    else [].
Proof.
  destruct (truthy url) eqn:Hu.
  - destruct (fetch_url url (USER_AGENT_AUTONOMOUS g) raw (PROXY_URL g))
      as [[content prefix]|e] eqn:Hf.
    + now rewrite (fetch_returned _ _ _ _ _ _ _ _ Hu Hf).
    + now rewrite (fetch_raised _ _ _ _ _ _ _ Hu Hf).
  - apply truthy_false in Hu. now rewrite fetch_empty_url.
Qed.

(** [fetch] only reads the globals. *)
Lemma fetch_final_state (url : str) :
  final_state (fetch fetch_url url max_length start_index raw g) = g.
Proof.
  destruct (truthy url) eqn:Hu.
  - destruct (fetch_url url (USER_AGENT_AUTONOMOUS g) raw (PROXY_URL g))
      as [[content prefix]|e] eqn:Hf.
    + now rewrite (fetch_returned _ _ _ _ _ _ _ _ Hu Hf).
    + now rewrite (fetch_raised _ _ _ _ _ _ _ Hu Hf).
  - apply truthy_false in Hu. now rewrite fetch_empty_url.
Qed.

(** C5. When [fetch_url] raises an instance of [Exception] (which is what
    [except Exception] catches), [fetch] returns
    "<error>Failed to fetch {url}: {str(e)}</error>": nothing propagates
    to the caller, and [fetch_url] was called once, with no second try. *)
Theorem fetch_failure_caught (url : str) (e : exn) :
  truthy url = true ->
  fetch_url url (USER_AGENT_AUTONOMOUS g) raw (PROXY_URL g) = Raised e ->
  exn_is_Exception e = true ->
  fetch fetch_url url max_length start_index raw g
  = (Returned (lit "<error>Failed to fetch " ++ url ++ lit ": " ++ exn_str e
               ++ lit "</error>"),
     g, [call_fetch_url url (USER_AGENT_AUTONOMOUS g) raw (PROXY_URL g)]).
Proof.
  intros Hu Hf He. rewrite (fetch_raised _ _ _ _ _ _ _ Hu Hf), He. reflexivity.
Qed.

(** What [except Exception] lets through (task cancellation, interpreter
    signals) leaves [fetch] as it came. *)
Lemma fetch_not_an_Exception (url : str) (e : exn) :
  truthy url = true ->
  fetch_url url (USER_AGENT_AUTONOMOUS g) raw (PROXY_URL g) = Raised e ->
  exn_is_Exception e = false ->
  result (fetch fetch_url url max_length start_index raw g) = Raised e.
Proof.
  intros Hu Hf He. rewrite (fetch_raised _ _ _ _ _ _ _ Hu Hf), He. reflexivity.
Qed.

(** C8. Under one configuration and one behaviour of the fetch step, a
    second invocation with the same arguments, run in the state the first
    one left, returns the same outcome and makes the same calls; both leave
    the configuration as they found it. *)
Theorem fetch_deterministic (url : str) :
  let first := fetch fetch_url url max_length start_index raw g in
  let second := fetch fetch_url url max_length start_index raw (final_state first) in
  result second = result first
  /\ trace second = trace first
  /\ final_state first = g
  /\ final_state second = g.
Proof.
  intros first second. unfold second, first.
  rewrite !fetch_final_state. repeat split.
Qed.

(** C4, as the code has it. [fetch] evaluates no robots policy: for every
    non-empty [url] its only call is [fetch_url] on that URL, with the
    autonomous user agent and the configured proxy. *)
Theorem fetch_without_robots_check (url : str) :
  truthy url = true ->
  trace (fetch fetch_url url max_length start_index raw g)
  = [call_fetch_url url (USER_AGENT_AUTONOMOUS g) raw (PROXY_URL g)]
  /\ forall u ua,
      ~ In (call_robots_check u ua)
           (trace (fetch fetch_url url max_length start_index raw g)).
Proof.
  intros Hu. rewrite fetch_trace, Hu. split; [reflexivity|].
  intros u ua [H|[]]. discriminate H.
Qed.

End EntryPoint.

(** C4, as stated, fails: the retrieval of [example_url] under the
    autonomous user agent has no robots evaluation before it. *)
Lemma fetch_not_robots_gated :
  ~ robots_gated (USER_AGENT_AUTONOMOUS configured)
      (trace (fetch example_fetch_url example_url 5000 0 false configured)).
Proof.
  intros H.
  destruct (H [] [] example_url false (PROXY_URL configured) eq_refl) as [ua []].
Qed.

Lemma fetch_failure_caught_witness :
  truthy bad_url = true
  /\ example_fetch_url bad_url (USER_AGENT_AUTONOMOUS configured) false
       (PROXY_URL configured) = Raised connection_refused
  /\ exn_is_Exception connection_refused = true
  /\ fetch example_fetch_url bad_url 5000 0 false configured
     = (Returned (lit "<error>Failed to fetch http://bad.example: connection refused</error>"),
        configured,
        [call_fetch_url bad_url (USER_AGENT_AUTONOMOUS configured) false
           (PROXY_URL configured)]).
Proof.
  assert (truthy bad_url = true) as Hu by reflexivity.
  assert (example_fetch_url bad_url (USER_AGENT_AUTONOMOUS configured) false
            (PROXY_URL configured) = Raised connection_refused) as Hf by reflexivity.
  assert (exn_is_Exception connection_refused = true) as He by reflexivity.
  split; [exact Hu|split; [exact Hf|split; [exact He|]]].
  exact (fetch_failure_caught example_fetch_url configured 5000 0 false bad_url
           connection_refused Hu Hf He).
Defined.

Lemma fetch_without_robots_check_witness :
  truthy example_url = true
  /\ trace (fetch example_fetch_url example_url 5000 0 false configured)
     = [call_fetch_url example_url (Some DEFAULT_USER_AGENT_AUTONOMOUS) false None].
Proof.
  assert (truthy example_url = true) as Hu by reflexivity.
  split; [exact Hu|].
  exact (proj1 (fetch_without_robots_check example_fetch_url configured 5000 0 false
                  example_url Hu)).
Defined.

(** * The bearer-token gate *)

Section Gate.
Variable app : asgi_app.
Variables (token : str) (sc : scope).

Lemma str_eqb_eq (a b : str) : str_eqb a b = true <-> a = b.
Proof. unfold str_eqb. destruct (list_eq_dec N.eq_dec a b); split; congruence. Qed.

(** The [Authorization] value the middleware looks at: the last one in the
    scope's header list, or the empty bytes. *)
Let authorization : bytes :=
  Dict.get (Dict.of_pairs (match scope_headers sc with Some h => h | None => [] end))
           (blit "authorization") (blit "").

(** A header that decodes to something else than "Bearer <token>" gets the
    401 response, and the application is not called. *)
Lemma auth_middleware_rejects (header : str) :
  scope_type sc = lit "http" ->
  Utf8.decode authorization = Some header ->
  header <> lit "Bearer " ++ token ->
  auth_middleware app token sc tt
  = (Returned tt, tt,
     [sent (http_response_start 401
              [ (blit "content-type", blit "application/json");
                (blit "www-authenticate", blit "Bearer") ]);
      sent (http_response_body UNAUTHORIZED_BODY)]).
Proof.
  intros Ht Hd Hne. unfold auth_middleware. rewrite Ht.
  change (str_eqb (lit "http") (lit "http")) with true. cbv iota.
  fold authorization. unfold bytes_decode. rewrite Hd.
  unfold bind at 1. unfold ret at 1. cbv beta iota.
  assert (str_eqb header (lit "Bearer " ++ token) = false) as ->.
  { destruct (str_eqb header (lit "Bearer " ++ token)) eqn:E; trivial.
    now apply str_eqb_eq in E. }
  reflexivity.
Qed.

(** A header that decodes to "Bearer <token>" lets the request through. *)
Lemma auth_middleware_accepts :
  scope_type sc = lit "http" ->
  Utf8.decode authorization = Some (lit "Bearer " ++ token) ->
  auth_middleware app token sc tt = await_app app sc tt.
Proof.
  intros Ht Hd. unfold auth_middleware. rewrite Ht.
  change (str_eqb (lit "http") (lit "http")) with true. cbv iota.
  fold authorization. unfold bytes_decode. rewrite Hd.
  unfold bind at 1. unfold ret at 1. cbv beta iota.
  assert (str_eqb (lit "Bearer " ++ token) (lit "Bearer " ++ token) = true) as ->
      by now apply str_eqb_eq.
  cbn [negb]. destruct (await_app app sc tt) as [[r s] t]. reflexivity.
Qed.

(** A header that is not UTF-8 makes the middleware raise before it sends
    anything. *)
Lemma auth_middleware_raises :
  scope_type sc = lit "http" ->
  Utf8.decode authorization = None ->
  auth_middleware app token sc tt = (Raised (UnicodeDecodeError authorization), tt, []).
Proof.
  intros Ht Hd. unfold auth_middleware. rewrite Ht.
  change (str_eqb (lit "http") (lit "http")) with true. cbv iota.
  fold authorization. unfold bytes_decode, bind. rewrite Hd. reflexivity.
Qed.

(** Without a token, or with an empty one, [get_app] installs no check. *)
Lemma get_app_open : get_app app None = app /\ get_app app (Some (lit "")) = app.
Proof. split; reflexivity. Qed.

Lemma get_app_gated : truthy token = true -> get_app app (Some token) = auth_middleware app token.
Proof. intros H. unfold get_app. now rewrite H. Qed.

End Gate.

(** C6, at the request where the code departs from it. With the token
    "secret" configured, an HTTP request whose [Authorization] header is the
    single byte 0xFF (not "Bearer secret") gets no 401 response: decoding the
    header raises [UnicodeDecodeError], nothing is sent and the application
    is not called. *)
Theorem get_app_undecodable_authorization (app : asgi_app) :
  get_app app (Some (lit "secret")) (http_scope [(blit "authorization", [xff])]) tt
  = (Raised (UnicodeDecodeError [xff]), tt, []).
Proof. reflexivity. Qed.

(** Scenario F of the specification. *)
Example scenario_f_missing_header :
  get_app silent_app (Some (lit "secret")) (http_scope []) tt
  = (Returned tt, tt,
     [sent UNAUTHORIZED_START; sent (http_response_body UNAUTHORIZED_BODY)]).
Proof. reflexivity. Qed.

Example scenario_f_exact_header :
  get_app silent_app (Some (lit "secret"))
    (http_scope [(blit "host", blit "localhost");
                 (blit "authorization", blit "Bearer secret")]) tt
  = (Returned tt, tt,
     [app_called (http_scope [(blit "host", blit "localhost");
                              (blit "authorization", blit "Bearer secret")])]).
Proof. reflexivity. Qed.

Example scenario_f_wrong_token :
  get_app silent_app (Some (lit "secret"))
    (http_scope [(blit "authorization", blit "Bearer Secret")]) tt
  = (Returned tt, tt,
     [sent UNAUTHORIZED_START; sent (http_response_body UNAUTHORIZED_BODY)]).
Proof. reflexivity. Qed.

(** * Following the continuation instructions *)

Section Following.
Variables (content : str) (max_length : Z).
Hypothesis max_length_positive : 0 < max_length.

Let returned (start_index : Z) : str := truncated_content content start_index max_length.

(** What the notice promises when there is one. *)
Lemma continuation_Some (start_index n : Z) :
  continuation content start_index max_length = Some n ->
  n = start_index + max_length /\ n < len content
  /\ start_index < len content /\ len (returned start_index) = max_length.
Proof.
  unfold continuation. fold (returned start_index).
  destruct (Z.geb_spec start_index (len content)); [discriminate|].
  destruct (truthy (returned start_index)); [|discriminate]. cbn [negb].
  destruct (Z.eqb_spec (len (returned start_index)) max_length); [|discriminate].
  destruct (Z.gtb_spec (len content - (start_index + len (returned start_index))) 0);
    [|discriminate].
  cbn [andb]. intros [= <-]. repeat split; lia.
Qed.



(** And the other way round: an index read by the caller is in the text. *)
Lemma continuation_fetch_page (prefix url : str) (start_index n : Z) :
  continuation content start_index max_length = Some n ->
  fetch_page prefix url content start_index max_length
  = envelope prefix url (returned start_index ++ continuation_notice n).
Proof.
  intros H. destruct (continuation_Some _ _ H) as (-> & Hn & Hlt & Hl).
  destruct (fetch_page_cases prefix url content start_index max_length)
    as [[E C]|[[E (_ & Hne & Hl' & Hr)]|[E (_ & Hne & Hno)]]];
    fold (returned start_index) in *.
  - exfalso. destruct C as [C|C]; [lia|]. rewrite C in Hl. cbn in Hl. lia.
  - now rewrite E, Hl.
  - exfalso. apply Hno. split; lia.
Qed.





End Following.


Section Progress.
Variable fetch_url : str -> option str -> bool -> option str -> outcome exn (str * str).
Variables (g : globals) (url : str) (raw : bool) (content prefix : str).

Hypothesis url_given : truthy url = true.
Hypothesis fetched :
  fetch_url url (USER_AGENT_AUTONOMOUS g) raw (PROXY_URL g) = Returned (content, prefix).



End Progress.



(** * Scenarios of the specification *)

Example scenario_a :
  result (fetch long_fetch_url example_url 5000 0 false configured)
  = Returned (envelope (lit "") example_url (repeat 97%N (Z.to_nat 5000) ++ continuation_notice 5000)).
Proof. vm_compute. reflexivity. Qed.

Example scenario_b :
  result (fetch long_fetch_url example_url 5000 10000 false configured)
  = Returned (envelope (lit "") example_url (repeat 97%N (Z.to_nat 2000))).
Proof. vm_compute. reflexivity. Qed.

Example scenario_c :
  result (fetch long_fetch_url example_url 5000 12000 false configured)
  = Returned (lit "<error>No more content available.</error>").
Proof. vm_compute. reflexivity. Qed.

Example scenario_e :
  result (fetch example_fetch_url bad_url 5000 0 false configured)
  = Returned (lit "<error>Failed to fetch http://bad.example: connection refused</error>").
Proof. reflexivity. Qed.

(** What [except Exception] does not catch goes through. *)
Example cancelled_fetch_propagates :
  result (fetch (fun _ _ _ _ => Raised cancelled) example_url 5000 0 false configured)
  = Raised cancelled.
Proof. reflexivity. Qed.

(** [fetch] itself does not check the [FetchArgs] constraints, and outside
    them the notice can name an index whose call finds nothing: from -3 the
    notice names -1, and the window from -1 to 1 is empty. *)
Example negative_start_index :
  fetch_page (lit "") example_url (lit "abcde") (-3) 2
  = envelope (lit "") example_url (lit "cd" ++ continuation_notice (-1))
  /\ fetch_page (lit "") example_url (lit "abcde") (-1) 2 = NO_MORE_CONTENT.
Proof. split; reflexivity. Qed.

(** [configure_server] is what writes the globals. *)
Example configure_server_custom :
  final_state (configure_server (Some (lit "agent/1")) (Some (lit "http://proxy")) initial_globals)
  = mk_globals (Some (lit "agent/1")) (Some (lit "agent/1")) (Some (lit "http://proxy")).
Proof. reflexivity. Qed.

(** * More about the pagination part *)

Section Windows.
Variables (prefix url content : str).

(** A slice never has more elements than its bounds are apart. *)
Lemma len_slice_le {A : Type} (s : list A) (a m : Z) :
  0 <= m -> len (slice s a (a + m)) <= m.
Proof.
  intros Hm. rewrite len_slice. pose proof (len_nonneg s) as Hn.
  unfold clamp.
  destruct (Z.ltb_spec a 0), (Z.ltb_spec (a + m) 0); lia.
Qed.

Lemma firstn_firstn_skipn {A : Type} (l : list A) (m m' : nat) :
  firstn m l ++ firstn m' (skipn m l) = firstn (m + m') l.
Proof.
  revert l. induction m as [|m IH]; intros [|x l]; simpl; trivial.
  - now rewrite firstn_nil.
  - now rewrite IH.
Qed.

(** Whatever the start index, and for every [max_length >= 0], an output
    that is not the end-of-content error is the envelope of between one and
    [max_length] characters of the content, followed by nothing or by the
    notice naming [start_index + max_length]; from a non-negative start
    index the slice ends inside the content. *)
Theorem fetch_page_slice_bounded (start_index max_length : Z) :
  0 <= max_length ->
  let returned := truncated_content content start_index max_length in
  fetch_page prefix url content start_index max_length = NO_MORE_CONTENT
  \/ (exists notice,
         fetch_page prefix url content start_index max_length
         = envelope prefix url (returned ++ notice)
         /\ (notice = [] \/ notice = continuation_notice (start_index + max_length))
         /\ 0 < len returned <= max_length
         /\ (0 <= start_index -> start_index + len returned <= len content)).
Proof.
  intros Hm returned.
  assert (len returned <= max_length) as Hle by (apply len_slice_le; lia).
  assert (0 <= start_index -> start_index < len content ->
          start_index + len returned <= len content) as Hend.
  { intros Hs Hlt. unfold returned, truncated_content.
    rewrite slice_window by lia. unfold len in *.
    rewrite length_firstn, length_skipn. lia. }
  pose proof (fetch_page_cases prefix url content start_index max_length) as Hcases.
  fold returned in Hcases. clearbody returned.
  destruct Hcases as [[E _]|[[E (Hlt & Hne & Hl & Hr)]|[E (Hlt & Hne & Hn)]]].
  - now left.
  - right. exists (continuation_notice (start_index + max_length)).
    rewrite E, Hl. repeat split; try tauto; try lia.
    pose proof (proj1 (truthy_len returned)) as Ht.
    destruct returned; [congruence|]. specialize (Ht eq_refl). lia.
  - right. exists []. rewrite E, app_nil_r. repeat split; try tauto; try lia.
    pose proof (proj1 (truthy_len returned)) as Ht.
    destruct returned; [congruence|]. specialize (Ht eq_refl). lia.
Qed.

(** [fetch] does not reject a [max_length] of zero or less: it then never
    appends a notice, and for [max_length = 0] every call gets the
    end-of-content error, whatever the content and the start index. *)
Theorem fetch_page_nonpositive_max_length (start_index max_length : Z) :
  max_length <= 0 ->
  (forall n,
      fetch_page prefix url content start_index max_length
      <> envelope prefix url
           (truncated_content content start_index max_length ++ continuation_notice n))
  /\ (max_length = 0 ->
      fetch_page prefix url content start_index max_length = NO_MORE_CONTENT).
Proof.
  intros Hm.
  pose proof (fetch_page_cases prefix url content start_index max_length) as Hcases.
  destruct Hcases as [[E C]|[[E (Hlt & Hne & Hl & Hr)]|[E (Hlt & Hne & Hn)]]].
  - split; [|now intros _].
    intros n H. rewrite E in H. now apply NO_MORE_CONTENT_not_envelope in H.
  - exfalso.
    destruct (truncated_content content start_index max_length) as [|c t];
      [congruence|]. unfold len in Hl. cbn [length] in Hl. lia.
  - split.
    + intros n H. rewrite E in H. now apply envelope_no_notice in H.
    + intros ->. exfalso. apply Hne.
      unfold truncated_content, slice. rewrite Z.add_0_r, Z.sub_diag. apply firstn_O.
Qed.

(** Two consecutive windows are one window: nothing is lost and nothing is
    repeated between a page and the next one. *)
Theorem consecutive_pages (start_index max_length max_length' : Z) :
  0 <= start_index -> 0 <= max_length -> 0 <= max_length' ->
  truncated_content content start_index max_length
  ++ truncated_content content (start_index + max_length) max_length'
  = truncated_content content start_index (max_length + max_length').
Proof.
  intros Hs Hm Hm'. unfold truncated_content.
  rewrite !slice_window by lia.
  replace (Z.to_nat (start_index + max_length))
    with (Z.to_nat max_length + Z.to_nat start_index)%nat by lia.
  rewrite <- skipn_skipn, firstn_firstn_skipn. f_equal. lia.
Qed.

End Windows.

Section Calls.
Variables (content : str) (max_length : Z).
Hypothesis max_length_positive : 0 < max_length.



End Calls.

Lemma consecutive_pages_witness :
  0 <= 3 /\ 0 <= 4 /\ 0 <= 2
  /\ lit "defg" ++ lit "hi" = truncated_content (lit "abcdefghijkl") 3 (4 + 2).
Proof.
  assert (0 <= 3) as H3 by lia. assert (0 <= 4) as H4 by lia. assert (0 <= 2) as H2 by lia.
  split; [exact H3|split; [exact H4|split; [exact H2|]]].
  exact (consecutive_pages (lit "abcdefghijkl") 3 4 2 H3 H4 H2).
Defined.

Lemma fetch_page_slice_bounded_witness :
  0 <= 5
  /\ exists notice,
      fetch_page (lit "") example_url (lit "abcdefghijkl") 3 5
      = lit "Contents of http://example.com/:" ++ [10%N] ++ lit "defgh" ++ notice
      /\ (notice = []
          \/ notice
             = [10%N; 10%N]
               ++ lit "<error>Content truncated. Call the fetch tool with a start_index of 8 to get more content.</error>")
      /\ 0 < len (lit "defgh") <= 5
      /\ (0 <= 3 -> 3 + len (lit "defgh") <= len (lit "abcdefghijkl")).
Proof.
  assert (0 <= 5) as H by lia.
  split; [exact H|].
  destruct (fetch_page_slice_bounded (lit "") example_url (lit "abcdefghijkl") 3 5 H)
    as [E|E].
  - vm_compute in E. discriminate E.
  - exact E.
Defined.

Lemma fetch_page_nonpositive_max_length_witness :
  0 <= 0 /\ fetch_page (lit "") example_url (lit "abcdefghijkl") 3 0 = NO_MORE_CONTENT.
Proof.
  assert (0 <= 0) as H by lia.
  split; [exact H|].
  exact (proj2 (fetch_page_nonpositive_max_length (lit "") example_url
                  (lit "abcdefghijkl") 3 0 H) eq_refl).
Defined.


(** * More about the entry point and the configuration *)

Section Configuration.
Variable fetch_url : str -> option str -> bool -> option str -> outcome exn (str * str).
Variables (max_length start_index : Z) (raw : bool).

(** [fetch] raises exactly when the URL is not empty and [fetch_url] raises
    an object that is not an instance of [Exception]; it then raises that
    very object. Everything else comes back as text. *)
Theorem fetch_raises_iff (g : globals) (url : str) (e : exn) :
  result (fetch fetch_url url max_length start_index raw g) = Raised e
  <-> truthy url = true
      /\ fetch_url url (USER_AGENT_AUTONOMOUS g) raw (PROXY_URL g) = Raised e
      /\ exn_is_Exception e = false.
Proof.
  destruct (truthy url) eqn:Hu.
  - destruct (fetch_url url (USER_AGENT_AUTONOMOUS g) raw (PROXY_URL g))
      as [[content prefix]|e'] eqn:Hf.
    + rewrite (fetch_returned _ _ _ _ _ _ _ _ Hu Hf). cbn.
      split; [discriminate|]. intros (_ & H & _). discriminate H.
    + rewrite (fetch_raised _ _ _ _ _ _ _ Hu Hf). unfold result. cbn [fst].
      destruct (exn_is_Exception e') eqn:He.
      * split; [discriminate|]. intros (_ & [= <-] & H). congruence.
      * split; [intros [= <-]; repeat split; trivial|]. now intros (_ & [= <-] & _).
  - apply truthy_false in Hu. rewrite (fetch_empty_url _ _ _ _ _ _ Hu). cbn.
    split; [discriminate|]. intros (H & _). discriminate H.
Qed.

(** [fetch] reads the autonomous user agent and the proxy and nothing else:
    two configurations that agree on these give the same outcome and the
    same call, whatever [USER_AGENT_MANUAL] holds. *)
Theorem fetch_ignores_manual_user_agent (g g' : globals) (url : str) :
  USER_AGENT_AUTONOMOUS g = USER_AGENT_AUTONOMOUS g' ->
  PROXY_URL g = PROXY_URL g' ->
  result (fetch fetch_url url max_length start_index raw g)
  = result (fetch fetch_url url max_length start_index raw g')
  /\ trace (fetch fetch_url url max_length start_index raw g)
     = trace (fetch fetch_url url max_length start_index raw g').
Proof.
  intros Ha Hp. split; [|now rewrite !fetch_trace, Ha, Hp].
  destruct (truthy url) eqn:Hu.
  - destruct (fetch_url url (USER_AGENT_AUTONOMOUS g) raw (PROXY_URL g))
      as [[content prefix]|e] eqn:Hf.
    + rewrite (fetch_returned _ _ _ _ _ _ _ _ Hu Hf).
      rewrite Ha, Hp in Hf. now rewrite (fetch_returned _ _ _ _ _ _ _ _ Hu Hf).
    + rewrite (fetch_raised _ _ _ _ _ _ _ Hu Hf).
      rewrite Ha, Hp in Hf. now rewrite (fetch_raised _ _ _ _ _ _ _ Hu Hf).
  - apply truthy_false in Hu. now rewrite !(fetch_empty_url _ _ _ _ _ _ Hu).
Qed.

(** After [configure_server], whatever the globals held before, both user
    agents are set and not empty and the proxy is the one given (none when
    none is given). A custom user agent that is not empty replaces both
    agents; no custom user agent, or an empty one, leaves the two defaults,
    which differ. *)
Theorem configure_server_user_agents (g : globals) (custom_user_agent proxy_url : option str) :
  let g' := final_state (configure_server custom_user_agent proxy_url g) in
  exists autonomous manual,
    USER_AGENT_AUTONOMOUS g' = Some autonomous
    /\ USER_AGENT_MANUAL g' = Some manual
    /\ autonomous <> [] /\ manual <> []
    /\ PROXY_URL g' = proxy_url
    /\ ((exists custom, custom_user_agent = Some custom /\ custom <> []
                        /\ autonomous = custom /\ manual = custom)
        \/ ((custom_user_agent = None \/ custom_user_agent = Some [])
            /\ autonomous = DEFAULT_USER_AGENT_AUTONOMOUS
            /\ manual = DEFAULT_USER_AGENT_MANUAL
            /\ autonomous <> manual)).
Proof.
  cbn. do 2 eexists. split; [reflexivity|split; [reflexivity|]].
  destruct custom_user_agent as [[|c custom]|]; cbn.
  - repeat split; try discriminate. right. repeat split; try discriminate. now right.
  - repeat split; try discriminate. left. exists (c :: custom).
    repeat split; discriminate.
  - repeat split; try discriminate. right. repeat split; try discriminate. now left.
Qed.

(** Configuring and then fetching: the one call of [fetch_url] carries the
    custom user agent when one was given (the autonomous default otherwise)
    and the configured proxy, whatever the globals held before. *)
Theorem configure_then_fetch (g : globals) (custom_user_agent proxy_url : option str)
        (url : str) :
  truthy url = true ->
  trace ((configure_server custom_user_agent proxy_url ;;;
          fetch fetch_url url max_length start_index raw) g)
  = [call_fetch_url url
       (Some (or_else custom_user_agent DEFAULT_USER_AGENT_AUTONOMOUS)) raw proxy_url]
  /\ result ((configure_server custom_user_agent proxy_url ;;;
              fetch fetch_url url max_length start_index raw) g)
     = result ((configure_server custom_user_agent proxy_url ;;;
                fetch fetch_url url max_length start_index raw) initial_globals).
Proof.
  intros Hu. unfold bind, configure_server, put.
  set (g' := mk_globals _ _ _).
  pose proof (fetch_trace fetch_url g' max_length start_index raw url) as Ht.
  rewrite Hu in Ht.
  destruct (fetch fetch_url url max_length start_index raw g') as [[r s] t].
  cbn in Ht. subst t. split; reflexivity.
Qed.

End Configuration.

Lemma fetch_ignores_manual_user_agent_witness :
  USER_AGENT_AUTONOMOUS configured
  = USER_AGENT_AUTONOMOUS (mk_globals (Some DEFAULT_USER_AGENT_AUTONOMOUS) None None)
  /\ PROXY_URL configured
     = PROXY_URL (mk_globals (Some DEFAULT_USER_AGENT_AUTONOMOUS) None None)
  /\ result (fetch example_fetch_url example_url 5 0 false configured)
     = result (fetch example_fetch_url example_url 5 0 false
                 (mk_globals (Some DEFAULT_USER_AGENT_AUTONOMOUS) None None)).
Proof.
  split; [reflexivity|split; [reflexivity|]].
  exact (proj1 (fetch_ignores_manual_user_agent example_fetch_url 5 0 false configured
                  (mk_globals (Some DEFAULT_USER_AGENT_AUTONOMOUS) None None)
                  example_url eq_refl eq_refl)).
Defined.

Lemma configure_then_fetch_witness :
  truthy example_url = true
  /\ trace ((configure_server (Some (lit "agent/1")) (Some (lit "http://proxy")) ;;;
             fetch example_fetch_url example_url 5 0 false) initial_globals)
     = [call_fetch_url example_url (Some (lit "agent/1")) false (Some (lit "http://proxy"))].
Proof.
  assert (truthy example_url = true) as Hu by reflexivity.
  split; [exact Hu|].
  exact (proj1 (configure_then_fetch example_fetch_url 5 0 false initial_globals
                  (Some (lit "agent/1")) (Some (lit "http://proxy")) example_url Hu)).
Defined.

(** * More about the bearer-token gate *)

Section DictFacts.
Implicit Types (k v d : bytes) (m : Dict.t).

Lemma bytes_eqb_eq (a b : bytes) : bytes_eqb a b = true <-> a = b.
Proof. unfold bytes_eqb. destruct (list_eq_dec byte_eq_dec a b); split; congruence. Qed.

Lemma bytes_eqb_neq (a b : bytes) : bytes_eqb a b = false <-> a <> b.
Proof. unfold bytes_eqb. destruct (list_eq_dec byte_eq_dec a b); split; congruence. Qed.

Lemma get_set_same m k v d : Dict.get (Dict.set k v m) k d = v.
Proof.
  unfold Dict.get. induction m as [|[k' v'] m IH]; cbn.
  - now rewrite (proj2 (bytes_eqb_eq k k) eq_refl).
  - destruct (bytes_eqb k k') eqn:E; cbn; rewrite E; [reflexivity|exact IH].
Qed.

Lemma get_set_other m k k' v d : k <> k' -> Dict.get (Dict.set k' v m) k d = Dict.get m k d.
Proof.
  intros Hne. unfold Dict.get. induction m as [|[k'' v''] m IH]; cbn.
  - now rewrite (proj2 (bytes_eqb_neq k k') Hne).
  - destruct (bytes_eqb k' k'') eqn:E; cbn.
    + apply bytes_eqb_eq in E. subst k''.
      now rewrite (proj2 (bytes_eqb_neq k k') Hne).
    + destruct (bytes_eqb k k''); [reflexivity|exact IH].
Qed.

Lemma of_pairs_snoc (pairs : list (bytes * bytes)) k v :
  Dict.of_pairs (pairs ++ [(k, v)]) = Dict.set k v (Dict.of_pairs pairs).
Proof. unfold Dict.of_pairs. now rewrite fold_left_app. Qed.

(** Looking up a key that no pair has gives the default. *)
Lemma get_of_pairs_missing (pairs : list (bytes * bytes)) k d :
  (forall kv, In kv pairs -> fst kv <> k) ->
  Dict.get (Dict.of_pairs pairs) k d = d.
Proof.
  induction pairs as [|[k' v'] pairs IH] using rev_ind; intros H; [reflexivity|].
  rewrite of_pairs_snoc, get_set_other.
  - apply IH. intros kv Hin. apply H, in_or_app. now left.
  - intros ->. apply (H (k', v')); [apply in_or_app; right; now left|reflexivity].
Qed.

(** Looking up a key gives the value of the last pair that has it. *)
Lemma get_of_pairs_last (before after : list (bytes * bytes)) k v d :
  (forall kv, In kv after -> fst kv <> k) ->
  Dict.get (Dict.of_pairs (before ++ (k, v) :: after)) k d = v.
Proof.
  induction after as [|[k' v'] after IH] using rev_ind; intros H.
  - rewrite of_pairs_snoc. apply get_set_same.
  - replace (before ++ (k, v) :: after ++ [(k', v')])
      with ((before ++ (k, v) :: after) ++ [(k', v')])
      by (now rewrite <- app_assoc).
    rewrite of_pairs_snoc, get_set_other.
    + apply IH. intros kv Hin. apply H, in_or_app. now left.
    + intros ->. apply (H (k', v')); [apply in_or_app; right; now left|reflexivity].
Qed.

End DictFacts.

Section Utf8Facts.
Local Open Scope N_scope.

Lemma to_N_inj (x y : byte) : Byte.to_N x = Byte.to_N y -> x = y.
Proof.
  intros H. pose proof (Byte.of_to_N x) as Hx. rewrite H, Byte.of_to_N in Hx.
  congruence.
Qed.

Lemma between_spec (lo hi : N) (b : byte) :
  Utf8.between lo hi b = true <-> lo <= Byte.to_N b <= hi.
Proof. unfold Utf8.between. rewrite andb_true_iff, !N.leb_le. tauto. Qed.

(** Bytes below 128 decode to themselves. *)
Lemma decode_ascii_bytes (bs : bytes) :
  Forall (fun b => Byte.to_N b < 128) bs ->
  Utf8.decode bs = Some (map Byte.to_N bs).
Proof.
  induction 1 as [|b bs Hb _ IH]; [reflexivity|].
  cbn [Utf8.decode map]. apply N.ltb_lt in Hb. rewrite Hb, IH. reflexivity.
Qed.

(** The four shapes of a well-formed sequence. *)
Lemma decode_cons_inv (b0 : byte) (rest : bytes) (s : str) :
  Utf8.decode (b0 :: rest) = Some s ->
  let n0 := Byte.to_N b0 in
  (n0 < 128 /\ exists s', Utf8.decode rest = Some s' /\ s = n0 :: s')
  \/ (194 <= n0 <= 223
      /\ exists b1 rest' s',
          rest = b1 :: rest' /\ 128 <= Byte.to_N b1 <= 191
          /\ Utf8.decode rest' = Some s'
          /\ s = ((n0 - 192) * 64 + (Byte.to_N b1 - 128)) :: s')
  \/ (224 <= n0 <= 239
      /\ exists b1 b2 rest' s',
          rest = b1 :: b2 :: rest'
          /\ 128 <= Byte.to_N b1 <= 191 /\ 128 <= Byte.to_N b2 <= 191
          /\ (n0 = 224 -> 160 <= Byte.to_N b1) /\ (n0 = 237 -> Byte.to_N b1 <= 159)
          /\ Utf8.decode rest' = Some s'
          /\ s = ((n0 - 224) * 4096 + (Byte.to_N b1 - 128) * 64 + (Byte.to_N b2 - 128)) :: s')
  \/ (240 <= n0 <= 244
      /\ exists b1 b2 b3 rest' s',
          rest = b1 :: b2 :: b3 :: rest'
          /\ 128 <= Byte.to_N b1 <= 191 /\ 128 <= Byte.to_N b2 <= 191
          /\ 128 <= Byte.to_N b3 <= 191
          /\ (n0 = 240 -> 144 <= Byte.to_N b1) /\ (n0 = 244 -> Byte.to_N b1 <= 143)
          /\ Utf8.decode rest' = Some s'
          /\ s = ((n0 - 240) * 262144 + (Byte.to_N b1 - 128) * 4096
                  + (Byte.to_N b2 - 128) * 64 + (Byte.to_N b3 - 128)) :: s').
Proof.
  intros H n0. cbn [Utf8.decode] in H. fold n0 in H.
  destruct (N.ltb_spec n0 128) as [H1|H1].
  { left. split; [exact H1|]. destruct (Utf8.decode rest) as [s'|] eqn:D; [|discriminate].
    injection H as <-. now exists s'. }
  destruct (Utf8.between 194 223 b0) eqn:H2.
  { right. left. apply between_spec in H2. split; [exact H2|].
    destruct rest as [|b1 rest']; [discriminate|].
    destruct (Utf8.between 128 191 b1) eqn:B1; [|discriminate].
    apply between_spec in B1.
    destruct (Utf8.decode rest') as [s'|] eqn:D; [|discriminate].
    injection H as <-. exists b1, rest', s'.
    unfold Utf8.payload. repeat split; trivial; lia. }
  destruct (Utf8.between 224 239 b0) eqn:H3.
  { right. right. left. apply between_spec in H3. split; [exact H3|].
    destruct rest as [|b1 [|b2 rest']]; try discriminate.
    destruct (Utf8.between _ _ b1) eqn:B1; [|discriminate].
    destruct (Utf8.between 128 191 b2) eqn:B2; [|discriminate].
    apply between_spec in B1, B2. cbn [andb] in H.
    destruct (Utf8.decode rest') as [s'|] eqn:D; [|discriminate].
    injection H as <-. exists b1, b2, rest', s'.
    unfold Utf8.payload.
    destruct (N.eqb_spec n0 224), (N.eqb_spec n0 237); repeat split; trivial; lia. }
  destruct (Utf8.between 240 244 b0) eqn:H4; [|discriminate].
  right. right. right. apply between_spec in H4. split; [exact H4|].
  destruct rest as [|b1 [|b2 [|b3 rest']]]; try discriminate.
  destruct (Utf8.between _ _ b1) eqn:B1; [|discriminate].
  destruct (Utf8.between 128 191 b2) eqn:B2; [|discriminate].
  destruct (Utf8.between 128 191 b3) eqn:B3; [|discriminate].
  apply between_spec in B1, B2, B3. cbn [andb] in H.
  destruct (Utf8.decode rest') as [s'|] eqn:D; [|discriminate].
  injection H as <-. exists b1, b2, b3, rest', s'.
  unfold Utf8.payload.
  destruct (N.eqb_spec n0 240), (N.eqb_spec n0 244); repeat split; trivial; lia.
Qed.

Lemma decode_cons_nonempty (b0 : byte) (rest : bytes) :
  Utf8.decode (b0 :: rest) <> Some [].
Proof.
  intros H. apply decode_cons_inv in H. cbv zeta in H.
  destruct H as [(_ & ? & _ & [=])|[(_ & ? & ? & ? & _ & _ & _ & [=])
    |[(_ & ? & ? & ? & ? & _ & _ & _ & _ & _ & _ & [=])
     |(_ & ? & ? & ? & ? & ? & _ & _ & _ & _ & _ & _ & _ & [=])]]].
Qed.

(** Two byte sequences that decode to the same text are the same bytes. *)
Lemma decode_inj (s : str) :
  forall b b' : bytes, Utf8.decode b = Some s -> Utf8.decode b' = Some s -> b = b'.
Proof.
  induction s as [|c s IH]; intros [|b0 rest] [|b0' rest'] H H'; trivial;
    try discriminate;
    try (now apply decode_cons_nonempty in H);
    try (now apply decode_cons_nonempty in H').
  apply decode_cons_inv in H. apply decode_cons_inv in H'. cbv zeta in H, H'.
  destruct H as [(A & s1 & D & E)
      |[(A & b1 & r1 & s1 & -> & A1 & D & E)
      |[(A & b1 & b2 & r1 & s1 & -> & A1 & A2 & I1 & I2 & D & E)
       |(A & b1 & b2 & b3 & r1 & s1 & -> & A1 & A2 & A3 & I1 & I2 & D & E)]]];
    destruct H' as [(A' & s1' & D' & E')
      |[(A' & b1' & r1' & s1' & -> & A1' & D' & E')
      |[(A' & b1' & b2' & r1' & s1' & -> & A1' & A2' & I1' & I2' & D' & E')
       |(A' & b1' & b2' & b3' & r1' & s1' & -> & A1' & A2' & A3' & I1' & I2' & D' & E')]]];
    injection E as Ec Es; injection E' as Ec' Es'; subst s1 s1';
    try (exfalso; lia);
    repeat match goal with
           | |- _ :: _ = _ :: _ => f_equal
           end;
    try (apply to_N_inj; lia);
    eapply IH; eassumption.
Qed.

End Utf8Facts.

Section GateProperties.
Variables (app : asgi_app) (token : str).

Lemma str_eqb_neq (a b : str) : str_eqb a b = false <-> a <> b.
Proof. unfold str_eqb. destruct (list_eq_dec N.eq_dec a b); split; congruence. Qed.

Lemma await_app_run (sc : scope) :
  await_app app sc tt
  = (result (app sc tt), final_state (app sc tt), app_called sc :: trace (app sc tt)).
Proof.
  unfold await_app, bind, emit. destruct (app sc tt) as [[r s] t]. reflexivity.
Qed.

(** The gate on an HTTP scope, in one equation. *)
Lemma gate_decision (sc : scope) :
  scope_type sc = lit "http" ->
  auth_middleware app token sc tt
  = match Utf8.decode (authorization_header sc) with
    | None => (Raised (UnicodeDecodeError (authorization_header sc)), tt, [])
    | Some header =>
        if str_eqb header (lit "Bearer " ++ token)
        then await_app app sc tt
        else (Returned tt, tt, UNAUTHORIZED)
    end.
Proof.
  intros Ht. destruct (Utf8.decode (authorization_header sc)) as [header|] eqn:D.
  - destruct (str_eqb header (lit "Bearer " ++ token)) eqn:E.
    + apply str_eqb_eq in E. subst header. now apply auth_middleware_accepts.
    + apply str_eqb_neq in E. now apply (auth_middleware_rejects app token sc header).
  - now apply auth_middleware_raises.
Qed.

(** Scopes that are not HTTP requests (websocket, lifespan) go to the
    application unchecked, whatever their headers hold. *)
Theorem gate_skips_other_scopes (sc : scope) :
  scope_type sc <> lit "http" ->
  auth_middleware app token sc tt = await_app app sc tt.
Proof.
  intros Ht. unfold auth_middleware.
  now rewrite (proj2 (str_eqb_neq (scope_type sc) (lit "http")) Ht).
Qed.

(** An HTTP request with no [authorization] entry among its headers, or
    with no header list at all, gets the 401 response, whatever the token
    is: the two messages are sent and the application is not called. *)
Theorem gate_missing_header (sc : scope) :
  scope_type sc = lit "http" ->
  (forall kv, In kv (match scope_headers sc with Some h => h | None => [] end) ->
              fst kv <> blit "authorization") ->
  auth_middleware app token sc tt = (Returned tt, tt, UNAUTHORIZED).
Proof.
  intros Ht Hmiss. rewrite (gate_decision sc Ht).
  unfold authorization_header. rewrite get_of_pairs_missing by exact Hmiss.
  reflexivity.
Qed.

(** A header that decodes to anything but "Bearer " followed by the token
    gets exactly the 401 response: status 401, the two headers, the JSON
    body; the middleware returns and the application is not called. *)
Theorem gate_rejects (sc : scope) (header : str) :
  scope_type sc = lit "http" ->
  Utf8.decode (authorization_header sc) = Some header ->
  header <> lit "Bearer " ++ token ->
  auth_middleware app token sc tt
  = (Returned tt, tt,
     [sent (http_response_start 401
              [ (blit "content-type", blit "application/json");
                (blit "www-authenticate", blit "Bearer") ]);
      sent (http_response_body UNAUTHORIZED_BODY)]).
Proof. intros Ht D Hne. now apply (auth_middleware_rejects app token sc header). Qed.

(** An accepted request is handed to the application with its scope
    untouched; the middleware sends nothing of its own, and what the
    application returns or raises is what the middleware returns or raises. *)
Theorem gate_accepts (sc : scope) :
  scope_type sc = lit "http" ->
  Utf8.decode (authorization_header sc) = Some (lit "Bearer " ++ token) ->
  result (auth_middleware app token sc tt) = result (app sc tt)
  /\ trace (auth_middleware app token sc tt) = app_called sc :: trace (app sc tt).
Proof.
  intros Ht D. rewrite (gate_decision sc Ht), D.
  rewrite (proj2 (str_eqb_eq _ _) eq_refl), await_app_run. split; reflexivity.
Qed.

Lemma app_called_iff_decodes (sc : scope) :
  scope_type sc = lit "http" ->
  In (app_called sc) (trace (auth_middleware app token sc tt))
  <-> Utf8.decode (authorization_header sc) = Some (lit "Bearer " ++ token).
Proof.
  intros Ht. rewrite (gate_decision sc Ht).
  destruct (Utf8.decode (authorization_header sc)) as [header|].
  - destruct (str_eqb header (lit "Bearer " ++ token)) eqn:E.
    + apply str_eqb_eq in E. subst header. rewrite await_app_run.
      split; [reflexivity|]. intros _. now left.
    + apply str_eqb_neq in E. split.
      * intros [H|[H|[]]]; discriminate H.
      * intros [= H]. contradiction.
  - split; [intros []|discriminate].
Qed.

(** On an HTTP scope the application is called if and only if the header
    decodes to "Bearer " followed by the token. *)
Theorem gate_app_called_iff (sc : scope) :
  scope_type sc = lit "http" ->
  In (app_called sc) (trace (auth_middleware app token sc tt))
  <-> Utf8.decode (authorization_header sc) = Some (lit "Bearer " ++ token).
Proof. exact (app_called_iff_decodes sc). Qed.

(** When a request carries several [authorization] headers, the last one
    decides, whatever the earlier ones say. *)
Theorem gate_last_authorization_decides (before after : list (bytes * bytes)) (value : bytes) :
  (forall kv, In kv after -> fst kv <> blit "authorization") ->
  let sc := http_scope (before ++ (blit "authorization", value) :: after) in
  authorization_header sc = value
  /\ (In (app_called sc) (trace (auth_middleware app token sc tt))
      <-> Utf8.decode value = Some (lit "Bearer " ++ token)).
Proof.
  intros Hafter sc.
  assert (authorization_header sc = value) as Hv
      by (unfold authorization_header, sc; cbn [scope_headers http_scope];
          now apply get_of_pairs_last).
  split; [exact Hv|]. rewrite <- Hv. now apply app_called_iff_decodes.
Qed.

(** Two HTTP requests that both get through the gate carry the same
    [authorization] bytes: one header value opens the gate, no other. *)
Theorem gate_accepted_header_unique (sc sc' : scope) :
  scope_type sc = lit "http" -> scope_type sc' = lit "http" ->
  In (app_called sc) (trace (auth_middleware app token sc tt)) ->
  In (app_called sc') (trace (auth_middleware app token sc' tt)) ->
  authorization_header sc = authorization_header sc'.
Proof.
  intros Ht Ht' H H'.
  apply (app_called_iff_decodes sc Ht) in H. apply (app_called_iff_decodes sc' Ht') in H'.
  exact (decode_inj _ _ _ H H').
Qed.

End GateProperties.

(** A token of ASCII characters is matched by the header made of the bytes
    "Bearer " and the token's bytes: such a request reaches the
    application. *)
Theorem gate_accepts_ascii_token (app : asgi_app) (token_bytes : bytes) (sc : scope) :
  Forall (fun b => (Byte.to_N b < 128)%N) token_bytes ->
  scope_type sc = lit "http" ->
  authorization_header sc = blit "Bearer " ++ token_bytes ->
  auth_middleware app (map Byte.to_N token_bytes) sc tt = await_app app sc tt.
Proof.
  intros Hascii Ht Hh. rewrite (gate_decision app _ sc Ht), Hh.
  rewrite decode_ascii_bytes.
  - rewrite map_app. change (map Byte.to_N (blit "Bearer ")) with (lit "Bearer ").
    now rewrite (proj2 (str_eqb_eq _ _) eq_refl).
  - apply Forall_app. split; [|exact Hascii].
    repeat constructor.
Qed.

Lemma gate_skips_other_scopes_witness :
  scope_type (mk_scope (lit "websocket") (Some [(blit "authorization", [xff])])) <> lit "http"
  /\ auth_middleware silent_app (lit "secret")
       (mk_scope (lit "websocket") (Some [(blit "authorization", [xff])])) tt
     = (Returned tt, tt,
        [app_called (mk_scope (lit "websocket") (Some [(blit "authorization", [xff])]))]).
Proof.
  assert (scope_type (mk_scope (lit "websocket") (Some [(blit "authorization", [xff])]))
          <> lit "http") as Ht by discriminate.
  split; [exact Ht|].
  exact (gate_skips_other_scopes silent_app (lit "secret") _ Ht).
Defined.

Lemma gate_missing_header_witness :
  scope_type (http_scope [(blit "host", blit "localhost")]) = lit "http"
  /\ (forall kv, In kv [(blit "host", blit "localhost")] -> fst kv <> blit "authorization")
  /\ auth_middleware silent_app (lit "secret") (http_scope [(blit "host", blit "localhost")]) tt
     = (Returned tt, tt, UNAUTHORIZED).
Proof.
  assert (forall kv, In kv [(blit "host", blit "localhost")] -> fst kv <> blit "authorization")
    as Hm by (intros kv [<-|[]]; discriminate).
  split; [reflexivity|split; [exact Hm|]].
  exact (gate_missing_header silent_app (lit "secret")
           (http_scope [(blit "host", blit "localhost")]) eq_refl Hm).
Defined.

Lemma gate_rejects_witness :
  scope_type (http_scope [(blit "authorization", blit "Bearer Secret")]) = lit "http"
  /\ Utf8.decode (authorization_header (http_scope [(blit "authorization", blit "Bearer Secret")]))
     = Some (lit "Bearer Secret")
  /\ lit "Bearer Secret" <> lit "Bearer " ++ lit "secret"
  /\ trace (auth_middleware silent_app (lit "secret")
              (http_scope [(blit "authorization", blit "Bearer Secret")]) tt)
     = UNAUTHORIZED.
Proof.
  assert (lit "Bearer Secret" <> lit "Bearer " ++ lit "secret") as Hne by discriminate.
  split; [reflexivity|split; [reflexivity|split; [exact Hne|]]].
  exact (f_equal snd
           (gate_rejects silent_app (lit "secret")
              (http_scope [(blit "authorization", blit "Bearer Secret")])
              (lit "Bearer Secret") eq_refl eq_refl Hne)).
Defined.

Lemma gate_accepts_witness :
  scope_type (http_scope [(blit "authorization", blit "Bearer secret")]) = lit "http"
  /\ Utf8.decode (authorization_header (http_scope [(blit "authorization", blit "Bearer secret")]))
     = Some (lit "Bearer " ++ lit "secret")
  /\ trace (auth_middleware silent_app (lit "secret")
              (http_scope [(blit "authorization", blit "Bearer secret")]) tt)
     = [app_called (http_scope [(blit "authorization", blit "Bearer secret")])].
Proof.
  split; [reflexivity|split; [reflexivity|]].
  exact (proj2 (gate_accepts silent_app (lit "secret")
                  (http_scope [(blit "authorization", blit "Bearer secret")])
                  eq_refl eq_refl)).
Defined.

Lemma gate_app_called_iff_witness :
  scope_type (http_scope [(blit "authorization", blit "Basic secret")]) = lit "http"
  /\ (In (app_called (http_scope [(blit "authorization", blit "Basic secret")]))
         (trace (auth_middleware silent_app (lit "secret")
                   (http_scope [(blit "authorization", blit "Basic secret")]) tt))
      <-> Utf8.decode (authorization_header
                         (http_scope [(blit "authorization", blit "Basic secret")]))
          = Some (lit "Bearer " ++ lit "secret")).
Proof.
  split; [reflexivity|].
  exact (gate_app_called_iff silent_app (lit "secret")
           (http_scope [(blit "authorization", blit "Basic secret")]) eq_refl).
Defined.

Lemma gate_last_authorization_decides_witness :
  (forall kv, In kv [(blit "host", blit "localhost")] -> fst kv <> blit "authorization")
  /\ authorization_header
       (http_scope ([(blit "authorization", blit "Bearer wrong")]
                    ++ (blit "authorization", blit "Bearer secret")
                    :: [(blit "host", blit "localhost")]))
     = blit "Bearer secret".
Proof.
  assert (forall kv, In kv [(blit "host", blit "localhost")] -> fst kv <> blit "authorization")
    as Hm by (intros kv [<-|[]]; discriminate).
  split; [exact Hm|].
  exact (proj1 (gate_last_authorization_decides silent_app (lit "secret")
                  [(blit "authorization", blit "Bearer wrong")]
                  [(blit "host", blit "localhost")] (blit "Bearer secret") Hm)).
Defined.

Lemma gate_accepted_header_unique_witness :
  let sc := http_scope [(blit "authorization", blit "Bearer secret")] in
  let sc' := http_scope [(blit "host", blit "localhost");
                         (blit "authorization", blit "Bearer secret")] in
  scope_type sc = lit "http" /\ scope_type sc' = lit "http"
  /\ In (app_called sc) (trace (auth_middleware silent_app (lit "secret") sc tt))
  /\ In (app_called sc') (trace (auth_middleware silent_app (lit "secret") sc' tt))
  /\ authorization_header sc = authorization_header sc'.
Proof.
  intros sc sc'.
  assert (In (app_called sc) (trace (auth_middleware silent_app (lit "secret") sc tt)))
    as H by (left; reflexivity).
  assert (In (app_called sc') (trace (auth_middleware silent_app (lit "secret") sc' tt)))
    as H' by (left; reflexivity).
  split; [reflexivity|split; [reflexivity|split; [exact H|split; [exact H'|]]]].
  exact (gate_accepted_header_unique silent_app (lit "secret") sc sc' eq_refl eq_refl H H').
Defined.

Lemma gate_accepts_ascii_token_witness :
  Forall (fun b => (Byte.to_N b < 128)%N) (blit "secret")
  /\ scope_type (http_scope [(blit "authorization", blit "Bearer secret")]) = lit "http"
  /\ authorization_header (http_scope [(blit "authorization", blit "Bearer secret")])
     = blit "Bearer " ++ blit "secret"
  /\ auth_middleware silent_app (lit "secret")
       (http_scope [(blit "authorization", blit "Bearer secret")]) tt
     = await_app silent_app (http_scope [(blit "authorization", blit "Bearer secret")]) tt.
Proof.
  assert (Forall (fun b => (Byte.to_N b < 128)%N) (blit "secret")) as Ha
      by (repeat constructor).
  split; [exact Ha|split; [reflexivity|split; [reflexivity|]]].
  exact (gate_accepts_ascii_token silent_app (blit "secret")
           (http_scope [(blit "authorization", blit "Bearer secret")])
           Ha eq_refl eq_refl).
Defined.

(** * Starting the server *)

Section Startup.
Variable streamable_http_app : asgi_app.

(** [serve_http] as one run. *)
Lemma serve_http_run (g : globals) (host : str) (port : Z)
      (auth_token custom_user_agent proxy_url : option str) :
  serve_http streamable_http_app host port auth_token custom_user_agent proxy_url g
  = (Returned tt,
     final_state (configure_server custom_user_agent proxy_url g),
     [printed (lit "Starting MCP fetch server on " ++ host ++ lit ":" ++ str_of_int port);
      printed (if token_given auth_token
               then lit "Authentication: Bearer token required"
               else lit "Authentication: None (public access)");
      uvicorn_run (get_app streamable_http_app auth_token) host port (lit "info")]).
Proof. destruct auth_token as [[|c t]|]; reflexivity. Qed.

(** What [serve_http] announces is what it serves. When it prints
    "Authentication: Bearer token required", the application it hands to
    uvicorn answers 401 to every HTTP request without an [authorization]
    header; when it prints "Authentication: None (public access)", which it
    also does for an empty token, it hands over the bare application. In
    both cases the globals are configured before the server runs. *)
Theorem serve_http_announces_what_it_serves (g : globals) (host : str) (port : Z)
        (auth_token custom_user_agent proxy_url : option str) :
  exists banner served,
    serve_http streamable_http_app host port auth_token custom_user_agent proxy_url g
    = (Returned tt,
       final_state (configure_server custom_user_agent proxy_url g),
       [printed (lit "Starting MCP fetch server on " ++ host ++ lit ":" ++ str_of_int port);
        printed banner;
        uvicorn_run served host port (lit "info")])
    /\ ((banner = lit "Authentication: Bearer token required"
         /\ forall sc,
             scope_type sc = lit "http" ->
             (forall kv, In kv (match scope_headers sc with Some h => h | None => [] end) ->
                         fst kv <> blit "authorization") ->
             served sc tt = (Returned tt, tt, UNAUTHORIZED))
        \/ (banner = lit "Authentication: None (public access)"
            /\ (auth_token = None \/ auth_token = Some [])
            /\ served = streamable_http_app)).
Proof.
  do 2 eexists. split; [apply serve_http_run|].
  destruct auth_token as [[|c t]|]; cbn [token_given truthy].
  - right. repeat split. now right.
  - left. split; [reflexivity|]. intros sc Ht Hmiss.
    rewrite get_app_gated by reflexivity.
    rewrite (gate_decision _ _ sc Ht). unfold authorization_header.
    rewrite get_of_pairs_missing by exact Hmiss. reflexivity.
  - right. repeat split. now left.
Qed.

Variable path : Type.
Variable path_exists : path -> bool.

(** Of the environment files only the first one that exists is loaded,
    and none after it is looked at; when none exists nothing is loaded. The
    globals are not touched. *)
Theorem load_env_files_first_existing (env_paths : list path) (g : globals) :
  let r := load_env_files path_exists env_paths g in
  final_state r = g
  /\ ((exists before env_path after,
          env_paths = before ++ env_path :: after
          /\ Forall (fun p => path_exists p = false) before
          /\ path_exists env_path = true
          /\ result r = Returned (Some env_path)
          /\ trace r = [load_dotenv env_path])
      \/ (Forall (fun p => path_exists p = false) env_paths
          /\ result r = Returned None
          /\ trace r = [])).
Proof.
  induction env_paths as [|p rest IH]; cbn zeta.
  - split; [reflexivity|]. right. now repeat split.
  - cbn [load_env_files]. destruct (path_exists p) eqn:E.
    + split; [reflexivity|]. left. exists [], p, rest. now repeat split.
    + destruct IH as [Hs [(before & q & after & -> & Hb & Hq & Hr & Ht)|(Hall & Hr & Ht)]].
      * split; [exact Hs|]. left. exists (p :: before), q, after.
        repeat split; trivial. now constructor.
      * split; [exact Hs|]. right. repeat split; trivial. now constructor.
Qed.

Variable dotenv : bool.
Variables (cwd_env etc_default package_env : path).

Lemma load_env_files_run (env_paths : list path) :
  exists loaded t,
    forall g, load_env_files path_exists env_paths g = (Returned loaded, g, t).
Proof.
  induction env_paths as [|p rest IH]; cbn [load_env_files].
  - now exists None, [].
  - destruct (path_exists p); [|exact IH].
    now exists (Some p), [load_dotenv p].
Qed.

Lemma env_step_run (g : globals) :
  (if dotenv
   then load_env_files path_exists [cwd_env; etc_default; package_env]
   else ret None) g
  = (Returned (env_loaded path_exists dotenv cwd_env etc_default package_env), g,
     env_events path_exists dotenv cwd_env etc_default package_env).
Proof.
  unfold env_events, env_loaded. destruct dotenv.
  - destruct (load_env_files_run [cwd_env; etc_default; package_env]) as (loaded & t & H).
    now rewrite !H.
  - reflexivity.
Qed.

Variable parse_args : option path -> outcome exn args.

(** With any transport but "http", [main] starts the stdio server with the
    user agent and the proxy only: host, port and token are not used, the
    globals of the HTTP server stay as they were, and uvicorn is not run. *)
Theorem main_stdio (a : args) (g : globals) :
  parse_args (env_loaded path_exists dotenv cwd_env etc_default package_env) = Returned a ->
  args_transport a <> lit "http" ->
  main streamable_http_app path_exists parse_args dotenv
       cwd_env etc_default package_env g
  = (Returned tt, g,
     env_events path_exists dotenv cwd_env etc_default package_env
     ++ [asyncio_run_serve (args_user_agent a) (args_proxy_url a)]).
Proof.
  intros Hp Ht. unfold main.
  unfold bind at 1. rewrite env_step_run. cbv beta iota zeta. rewrite Hp.
  unfold bind, ret, emit. rewrite (proj2 (str_eqb_neq _ _) Ht). reflexivity.
Qed.


(** When the arguments cannot be parsed (a wrong option, [--help], a port
    that is not a number), [main] ends the way the parser ended: no server
    is started and the globals are not touched. *)
Theorem main_parse_failure (e : exn) (g : globals) :
  parse_args (env_loaded path_exists dotenv cwd_env etc_default package_env) = Raised e ->
  main streamable_http_app path_exists parse_args dotenv
       cwd_env etc_default package_env g
  = (Raised e, g, env_events path_exists dotenv cwd_env etc_default package_env).
Proof.
  intros Hp. unfold main.
  unfold bind at 1. rewrite env_step_run. cbv beta iota zeta. rewrite Hp.
  unfold bind, raise. now rewrite app_nil_r.
Qed.

End Startup.

Lemma main_stdio_witness :
  example_parse_args (env_loaded example_exists false 0%nat 1%nat 2%nat) = Returned stdio_args
  /\ args_transport stdio_args <> lit "http"
  /\ main silent_app example_exists example_parse_args false 0%nat 1%nat 2%nat initial_globals
     = (Returned tt, initial_globals, [asyncio_run_serve (Some (lit "agent/1")) None]).
Proof.
  assert (args_transport stdio_args <> lit "http") as Ht by discriminate.
  split; [reflexivity|split; [exact Ht|]].
  exact (main_stdio silent_app nat example_exists false 0%nat 1%nat 2%nat
           example_parse_args stdio_args initial_globals eq_refl Ht).
Defined.


Lemma main_parse_failure_witness :
  example_parse_args (env_loaded (fun _ => true) true 0%nat 1%nat 2%nat)
  = Raised (mk_exn false (lit "2"))
  /\ main silent_app (fun _ => true) example_parse_args true 0%nat 1%nat 2%nat configured
     = (Raised (mk_exn false (lit "2")), configured, [load_dotenv 0%nat]).
Proof.
  split; [reflexivity|].
  exact (main_parse_failure silent_app nat (fun _ => true) true 0%nat 1%nat 2%nat
           example_parse_args (mk_exn false (lit "2")) configured eq_refl).
Defined.
